(** * mkvparser::Stream — the per-track position cursor of libmkvparser

    A shallow embedding of [src/libmkvparser/mkvparserstream.cpp]
    (class [mkvparser::Stream]) and the properties of its seek, stop-position
    and sample-pull operations.

    Conventions of the embedding.
    - A C++ pointer is an [option]: [None] is the null pointer, [Some x] points
      at the object [x]; pointer comparison is comparison of these values.
    - [__int64]/[LONGLONG]/[HRESULT]/[DWORD] values are [Z]; the 64-bit
      products and sums the code computes are written with [wrap64].
    - A member function of [Stream] is a function of the receiver's fields
      (record [Stream]) returning a [result]: the value and the new fields, or
      the reason the call did not return (a failed [assert], a call through a
      null pointer).
    - [assert] is the <cassert> macro: compiled out when NDEBUG is defined.
      The build is a parameter ([NDEBUG : bool]) and every theorem below holds
      for both builds.
    - The parser classes ([Track], [Segment], [Cluster], [BlockEntry],
      [Block], [Cues]) live in mkvparser.hpp/.cpp and are taken as a record of
      their member functions, one field per member the stream calls. *)

From Stdlib Require Import ZArith List Bool Lia.
From stdpp Require Import base decidable option numbers.
Import ListNotations.
Local Open Scope Z_scope.

(** ** Outcomes *)

Inductive result (A : Type) : Type :=
| Ok (a : A)
| AssertionFailed
| NullDereference.

Arguments Ok {A} a.
Arguments AssertionFailed {A}.
Arguments NullDereference {A}.

Definition result_bind {A B : Type} (m : result A) (k : A -> result B) : result B :=
  match m with
  | Ok a => k a
  | AssertionFailed => AssertionFailed
  | NullDereference => NullDereference
  end.

Notation "'do' x <- m ; k" := (result_bind m (fun x => k))
  (at level 10, x name, m at level 100, k at level 200, only parsing).

(** [p->member] through a pointer [p]. *)
Definition deref {A : Type} (p : option A) : result A :=
  match p with
  | Some a => Ok a
  | None => NullDereference
  end.

(** A pointer used as a condition: [if (p)], [assert(p)]. *)
Definition nonnull {A : Type} (p : option A) : bool :=
  match p with
  | Some _ => true
  | None => false
  end.

(** ** Machine integers and platform constants *)

(** The value an [__int64] product or sum has on the target (two's
    complement, 64 bits). *)
Definition wrap64 (z : Z) : Z := (z + 2 ^ 63) mod 2 ^ 64 - 2 ^ 63.

(** HRESULTs are signed 32-bit: winerror.h, and vfwmsgs.h for the VFW one. *)
Definition S_OK : Z := 0.
Definition S_FALSE : Z := 1.
Definition E_INVALIDARG : Z := 0x80070057 - 2 ^ 32.
Definition VFW_E_BUFFER_UNDERFLOW : Z := 0x8004020D - 2 ^ 32.
Definition SUCCEEDED (hr : Z) : bool := 0 <=? hr.

(** AM_SEEKING_SeekingFlags, strmif.h. *)
Definition AM_SEEKING_NoPositioning : Z := 0.
Definition AM_SEEKING_AbsolutePositioning : Z := 1.
Definition AM_SEEKING_RelativePositioning : Z := 2.
Definition AM_SEEKING_IncrementalPositioning : Z := 3.
Definition AM_SEEKING_PositioningBitsMask : Z := 3.

Section Stream.

Context {Cluster BlockEntry Block Cues CuePoint TrackPosition IMediaSample : Type}.
Context `{!EqDecision Cluster, !EqDecision BlockEntry}.

(** ** The parser, as the stream sees it through [m_pTrack]

    [Track_GetFirst] and [Track_GetNext] return their status together with
    the pointer they store through their reference parameter. [Cues_Find]
    is [None] when the C++ function returns [false]; otherwise it carries the
    two pointers it hands back. [E_BUFFER_NOT_FULL] is the status constant
    mkvparser.hpp declares for "not enough of the file is loaded". *)

Record Track : Type := {
  E_BUFFER_NOT_FULL : Z;
  Track_GetEOS : BlockEntry;
  Track_GetFirst : Z * option BlockEntry;
  Track_GetNext : option BlockEntry -> Z * option BlockEntry;
  Segment_GetDuration : Z;
  Segment_GetCount : Z;
  Segment_Unparsed : Z;
  Segment_m_eos : Cluster;
  Segment_GetCues : option Cues;
  Segment_Seek : Z -> option BlockEntry;
  Segment_GetFirst : option Cluster;
  Segment_GetNext : option Cluster -> option Cluster;
  Segment_FindCluster : Z -> option Cluster;
  Cues_Find : Cues -> Z -> option (CuePoint * TrackPosition);
  Cues_GetBlock : Cues -> CuePoint -> TrackPosition -> option BlockEntry;
  Cluster_EOS : Cluster -> bool;
  Cluster_GetTime : Cluster -> Z;
  Cluster_GetEntry : Cluster -> option BlockEntry;
  BlockEntry_EOS : BlockEntry -> bool;
  BlockEntry_GetBlock : BlockEntry -> option Block;
  BlockEntry_GetCluster : BlockEntry -> option Cluster;
  Block_GetTime : Block -> option Cluster -> Z
}.

(** ** The fields of [Stream] ([m_pTrack] is const: it is the parameter
    [trk] below) *)

Record Stream : Type := {
  m_bDiscontinuity : bool;
  m_pCurr : option BlockEntry;
  m_pStop : option BlockEntry;
  m_pBase : option Cluster
}.

Definition set_m_bDiscontinuity (b : bool) (s : Stream) : Stream :=
  {| m_bDiscontinuity := b; m_pCurr := m_pCurr s;
     m_pStop := m_pStop s; m_pBase := m_pBase s |}.

Definition set_m_pCurr (p : option BlockEntry) (s : Stream) : Stream :=
  {| m_bDiscontinuity := m_bDiscontinuity s; m_pCurr := p;
     m_pStop := m_pStop s; m_pBase := m_pBase s |}.

Definition set_m_pStop (p : option BlockEntry) (s : Stream) : Stream :=
  {| m_bDiscontinuity := m_bDiscontinuity s; m_pCurr := m_pCurr s;
     m_pStop := p; m_pBase := m_pBase s |}.

Definition set_m_pBase (p : option Cluster) (s : Stream) : Stream :=
  {| m_bDiscontinuity := m_bDiscontinuity s; m_pCurr := m_pCurr s;
     m_pStop := m_pStop s; m_pBase := p |}.

(** ** The virtual members a concrete stream supplies

    [OnPopulateSample] is pure virtual and [SendPreroll] is overridable; both
    are members, so they see the receiver's fields. [OnPopulateSample] is the
    sink of the pull loop. *)

Record Hooks : Type := {
  SendPreroll : IMediaSample -> bool;
  OnPopulateSample : Stream -> option BlockEntry -> IMediaSample -> Z
}.

(** [Stream::SendPreroll], the base implementation. *)
Definition Stream_SendPreroll (_ : IMediaSample) : bool := false.

(** One call of the sink, as [PopulateSample] makes it: the fields at the
    moment of the call, the block entry handed over, and the sink's HRESULT. *)
Record Delivery : Type := {
  seen : Stream;
  pNext : option BlockEntry;
  answer : Z
}.

Variable NDEBUG : bool.
Variable trk : Track.
Variable hooks : Hooks.

Definition assert (c : result bool) : result unit :=
  if NDEBUG then Ok tt
  else do b <- c ; if b then Ok tt else AssertionFailed.

(** ** Stream::Init (lines 37-43) *)

Definition Init (_ : Stream) : Stream :=
  {| m_bDiscontinuity := true;
     m_pCurr := None;
     m_pStop := Some (Track_GetEOS trk);
     m_pBase := None |}.

(** The constructor (lines 25-29) runs [Init] on fields that hold nothing
    yet; [Init] reads none of them. *)
Definition Stream_ctor : Stream :=
  Init {| m_bDiscontinuity := false; m_pCurr := None;
          m_pStop := None; m_pBase := None |}.

(** ** Stream::Seek (lines 337-407) *)

(** Lines 380-401: the block entry the seek lands on, from the cue index
    when it is asked for, present and has an entry for the time, else from
    [Segment::Seek]. *)
Definition Seek_lookup (tCurr_ns : Z) (use_cues : bool) : option BlockEntry :=
  let fallback := Segment_Seek trk tCurr_ns in
  if negb use_cues then fallback
  else
    match Segment_GetCues trk with
    | Some pCues =>
        match Cues_Find trk pCues tCurr_ns with
        | Some (pCP, pTP) => Cues_GetBlock trk pCues pCP pTP
        | None => fallback
        end
    | None => fallback
    end.

(** Lines 391-396 and 401-406: both ways of landing end alike. *)
Definition Seek_at (p : option BlockEntry) (s : Stream)
  : result (option Cluster * Stream) :=
  let s := set_m_pCurr p s in
  do _ <- assert (Ok (nonnull (m_pCurr s))) ;
  do _ <- assert (do c <- deref (m_pCurr s) ; Ok (negb (BlockEntry_EOS trk c))) ;
  do c <- deref (m_pCurr s) ;
  let s := set_m_pBase (BlockEntry_GetCluster trk c) s in
  Ok (m_pBase s, s).

Definition Seek (tCurr_ns : Z) (use_cues : bool) (s : Stream)
  : result (option Cluster * Stream) :=
  let duration_ns := Segment_GetDuration trk in
  do _ <- assert (Ok (0 <=? duration_ns)) ;
  let s := set_m_bDiscontinuity true s in
  if Segment_GetCount trk =? 0 then
    if Segment_Unparsed trk <=? 0 then
      let s := set_m_pBase (Some (Segment_m_eos trk)) s in
      let s := set_m_pCurr (Some (Track_GetEOS trk)) s in
      Ok (m_pBase s, s)
    else
      let s := set_m_pBase None s in
      let s := set_m_pCurr None s in
      Ok (m_pBase s, s)
  else if tCurr_ns <=? 0 then
    let s := set_m_pBase None s in
    let s := set_m_pCurr None s in
    Ok (m_pBase s, s)
  else if tCurr_ns >=? duration_ns then
    let s := set_m_pBase (Some (Segment_m_eos trk)) s in
    let s := set_m_pCurr (Some (Track_GetEOS trk)) s in
    Ok (m_pBase s, s)
  else
    Seek_at (Seek_lookup tCurr_ns use_cues) s.

(** ** Stream::SetCurrPosition (lines 410-419) *)

Definition SetCurrPosition (pBase : option Cluster) (s : Stream) : Stream :=
  let s :=
    match pBase with
    | None => set_m_pCurr None s
    | Some c => set_m_pCurr (Cluster_GetEntry trk c) s
    end in
  let s := set_m_pBase pBase s in
  set_m_bDiscontinuity true s.

(** ** Stream::SetStopPosition (lines 422-528) *)

(** [(p != 0) && p->EOS()] *)
Definition at_EOS (p : option BlockEntry) : bool :=
  match p with
  | Some e => BlockEntry_EOS trk e
  | None => false
  end.

(** [p->GetBlock()->GetTime(p->GetCluster())]; [checked] is the
    [assert(pBlock)] some call sites have. *)
Definition entry_time (checked : bool) (p : option BlockEntry) : result Z :=
  do e <- deref p ;
  let pBlock := BlockEntry_GetBlock trk e in
  do _ <- (if checked then assert (Ok (nonnull pBlock)) else Ok tt) ;
  do b <- deref pBlock ;
  Ok (Block_GetTime trk b (BlockEntry_GetCluster trk e)).

(** How the [switch] on the positioning mode ends: it falls out with the
    target, or the function returns from inside it. *)
Inductive switch_exit : Type :=
| Break (tStop_ns : Z)
| Return (s : Stream).

(** Lines 465-504. *)
Definition SetStopPosition_switch (dwStopPos stoppos_reftime tCurr_ns duration_ns : Z)
    (s : Stream) : result switch_exit :=
  let stoppos_ns := wrap64 (stoppos_reftime * 100) in
  if dwStopPos =? AM_SEEKING_AbsolutePositioning then
    Ok (Break stoppos_reftime)
  else if dwStopPos =? AM_SEEKING_RelativePositioning then
    if negb (nonnull (m_pStop s)) || at_EOS (m_pStop s) then
      Ok (Break (wrap64 (duration_ns + stoppos_ns)))
    else
      do t <- entry_time true (m_pStop s) ;
      Ok (Break (wrap64 (t + stoppos_ns)))
  else if dwStopPos =? AM_SEEKING_IncrementalPositioning then
    if stoppos_reftime <=? 0 then
      Ok (Return (set_m_pStop (m_pCurr s) s))
    else
      Ok (Break (wrap64 (tCurr_ns + stoppos_ns)))
  else
    do _ <- assert (Ok false) ;
    Ok (Return s).

(** Lines 525-527, the condition of the closing assertion. *)
Definition stop_not_before (tCurr_ns : Z) (pStop : option BlockEntry) : result bool :=
  if negb (nonnull pStop) || at_EOS pStop then Ok true
  else do t <- entry_time false pStop ; Ok (t >=? tCurr_ns).

(** Lines 506-528. *)
Definition SetStopPosition_resolve (tCurr_ns duration_ns : Z)
    (pCurrCluster : option Cluster) (tStop_ns : Z) (s : Stream) : result Stream :=
  if tStop_ns <=? tCurr_ns then
    Ok (set_m_pStop (m_pCurr s) s)
  else if tStop_ns >=? duration_ns then
    Ok (set_m_pStop (Some (Track_GetEOS trk)) s)
  else
    let pStopCluster := Segment_FindCluster trk tStop_ns in
    do _ <- assert (Ok (nonnull pStopCluster)) ;
    let pStopCluster :=
      if decide (pStopCluster = pCurrCluster)
      then Segment_GetNext trk pStopCluster
      else pStopCluster in
    do c <- deref pStopCluster ;
    let s := set_m_pStop (Cluster_GetEntry trk c) s in
    do _ <- assert (stop_not_before tCurr_ns (m_pStop s)) ;
    Ok s.

(** Lines 443-453. *)
Definition SetStopPosition_tCurr (s : Stream) : result Z :=
  match m_pCurr s with
  | None => Ok 0
  | Some _ =>
      do t <- entry_time false (m_pCurr s) ;
      do _ <- assert (Ok (t >=? 0)) ;
      Ok t
  end.

(** Lines 455-456. *)
Definition pCurrCluster (s : Stream) : option Cluster :=
  let pFirst := Segment_GetFirst trk in
  if nonnull (m_pBase s) then m_pBase s else pFirst.

Definition SetStopPosition (stoppos_reftime dwStop_ : Z) (s : Stream)
  : result Stream :=
  let dwStopPos := Z.land dwStop_ AM_SEEKING_PositioningBitsMask in
  do _ <- assert (Ok (negb (dwStopPos =? AM_SEEKING_NoPositioning))) ;
  if Segment_GetCount trk =? 0 then
    Ok (set_m_pStop (Some (Track_GetEOS trk)) s)
  else if at_EOS (m_pCurr s) then
    Ok (set_m_pStop (Some (Track_GetEOS trk)) s)
  else
    do tCurr_ns <- SetStopPosition_tCurr s ;
    let pCurrCluster := pCurrCluster s in
    do _ <- assert (Ok (nonnull pCurrCluster)) ;
    do _ <- assert (do c <- deref pCurrCluster ; Ok (negb (Cluster_EOS trk c))) ;
    do _ <- assert (do c <- deref pCurrCluster ; Ok (tCurr_ns >=? Cluster_GetTime trk c)) ;
    let duration_ns := Segment_GetDuration trk in
    do _ <- assert (Ok (duration_ns >=? 0)) ;
    do x <- SetStopPosition_switch dwStopPos stoppos_reftime tCurr_ns duration_ns s ;
    match x with
    | Return s' => Ok s'
    | Break tStop_ns =>
        SetStopPosition_resolve tCurr_ns duration_ns pCurrCluster tStop_ns s
    end.

(** What a call needs to get through lines 426-463 to the [switch] with
    current time [tCurr_ns]: clusters are loaded, the cursor is not at end of
    stream, the current block can be read, and, where assertions are compiled
    in, the asserted facts hold. *)
Definition reaches_switch (dwStop_ : Z) (s : Stream) (tCurr_ns : Z) : Prop :=
  Segment_GetCount trk <> 0 /\
  at_EOS (m_pCurr s) = false /\
  match m_pCurr s with
  | None => tCurr_ns = 0
  | Some e =>
      exists b, BlockEntry_GetBlock trk e = Some b /\
                tCurr_ns = Block_GetTime trk b (BlockEntry_GetCluster trk e)
  end /\
  (NDEBUG = false ->
   Z.land dwStop_ AM_SEEKING_PositioningBitsMask <> AM_SEEKING_NoPositioning /\
   0 <= tCurr_ns /\
   0 <= Segment_GetDuration trk /\
   exists c, pCurrCluster s = Some c /\
             Cluster_EOS trk c = false /\
             Cluster_GetTime trk c <= tCurr_ns).

(** ** Stream::SetStopPositionEOS (lines 531-534) *)

Definition SetStopPositionEOS (s : Stream) : Stream :=
  set_m_pStop (Some (Track_GetEOS trk)) s.

(** ** Stream::PopulateSample (lines 563-628)

    The result is the HRESULT, the calls made to the sink, and the fields. *)

(** Lines 585-627: from the end-of-stream tests on. *)
Definition PopulateSample_next (pSample : IMediaSample) (s : Stream)
  : result (Z * list Delivery * Stream) :=
  do eos <- (if negb (nonnull (m_pStop s))
           then do c <- deref (m_pCurr s) ; Ok (BlockEntry_EOS trk c)
           else Ok (bool_decide (m_pCurr s = m_pStop s))) ;
  if eos : bool then Ok (S_FALSE, [], s)
  else
    let '(status, pNextBlock) := Track_GetNext trk (m_pCurr s) in
    if status =? E_BUFFER_NOT_FULL trk then Ok (VFW_E_BUFFER_UNDERFLOW, [], s)
    else
      do _ <- assert (Ok (status >=? 0)) ;
      do _ <- assert (Ok (nonnull pNextBlock)) ;
      let hr := OnPopulateSample hooks s pNextBlock pSample in
      let sent := [ {| seen := s; pNext := pNextBlock; answer := hr |} ] in
      do _ <- assert (Ok (SUCCEEDED hr)) ;
      let s := set_m_pCurr pNextBlock s in
      if negb (hr =? S_OK) then Ok (2, sent, s)
      else
        let s := set_m_bDiscontinuity false s in
        Ok (S_OK, sent, s).

Definition PopulateSample (pSample : option IMediaSample) (s : Stream)
  : result (Z * list Delivery * Stream) :=
  match pSample with
  | None => Ok (E_INVALIDARG, [], s)
  | Some smp =>
      if SendPreroll hooks smp then Ok (S_OK, [], s)
      else
        match m_pCurr s with
        | None =>
            let '(status, pFirstBlock) := Track_GetFirst trk in
            let s := set_m_pCurr pFirstBlock s in
            if status =? E_BUFFER_NOT_FULL trk then Ok (VFW_E_BUFFER_UNDERFLOW, [], s)
            else
              do _ <- assert (Ok (status >=? 0)) ;
              do _ <- assert (Ok (nonnull (m_pCurr s))) ;
              let s := set_m_pBase (Segment_GetFirst trk) s in
              do _ <- assert (Ok (nonnull (m_pBase s))) ;
              PopulateSample_next smp s
        | Some _ => PopulateSample_next smp s
        end
  end.

(** ** A session: the public members called one after another

    A call yields the status it returned when it is [PopulateSample], the
    calls it made to the sink, and the fields after it; a session collects
    these in call order. *)

Inductive call : Type :=
| call_Init
| call_Seek (tCurr_ns : Z) (use_cues : bool)
| call_SetCurrPosition (pBase : option Cluster)
| call_SetStopPosition (stoppos_reftime dwStop_ : Z)
| call_SetStopPositionEOS
| call_PopulateSample (pSample : option IMediaSample).

Definition step (c : call) (s : Stream) : result (list Z * list Delivery * Stream) :=
  match c with
  | call_Init => Ok ([], [], Init s)
  | call_Seek t use_cues =>
      do r <- Seek t use_cues s ; Ok ([], [], snd r)
  | call_SetCurrPosition pBase => Ok ([], [], SetCurrPosition pBase s)
  | call_SetStopPosition t dw =>
      do s' <- SetStopPosition t dw s ; Ok ([], [], s')
  | call_SetStopPositionEOS => Ok ([], [], SetStopPositionEOS s)
  | call_PopulateSample pSample =>
      do r <- PopulateSample pSample s ;
      let '(hr, sent, s') := r in Ok ([hr], sent, s')
  end.

End Stream.

Arguments Track : clear implicits.
Arguments Stream : clear implicits.
Arguments Hooks : clear implicits.
Arguments Delivery : clear implicits.
Arguments call : clear implicits.

Section Session.

Context {Cluster BlockEntry Block Cues CuePoint TrackPosition IMediaSample : Type}.
Context `{!EqDecision Cluster, !EqDecision BlockEntry}.

Variable NDEBUG : bool.
Variable hooks : Hooks Cluster BlockEntry IMediaSample.

(** The container is parsed while it is read, so each call comes with the
    parser as it stands when the call is made. *)
Fixpoint run
    (cs : list (Track Cluster BlockEntry Block Cues CuePoint TrackPosition
                * call Cluster IMediaSample))
    (s : Stream Cluster BlockEntry)
  : result (list Z * list (Delivery Cluster BlockEntry) * Stream Cluster BlockEntry) :=
  match cs with
  | [] => Ok ([], [], s)
  | (trk, c) :: cs' =>
      do r <- step NDEBUG trk hooks c s ;
      let '(hrs, sent, s1) := r in
      do r' <- run cs' s1 ;
      let '(hrs', sent', s2) := r' in
      Ok (hrs ++ hrs', sent ++ sent', s2)
  end.

End Session.

(** ** The reporting and seek-resolution members

    These read the fields and the parser and write nothing. [E_POINTER] is
    winerror.h's. A track's segment pointer is taken to be there: every
    member dereferences it. *)

Definition E_POINTER : Z := 0x80004003 - 2 ^ 32.

Section Reporting.

Context {Cluster BlockEntry Block Cues CuePoint TrackPosition : Type}.
Context `{!EqDecision Cluster, !EqDecision BlockEntry}.

Variable NDEBUG : bool.
Variable trk : Track Cluster BlockEntry Block Cues CuePoint TrackPosition.

(** Stream::GetDuration (lines 92-103). [ns / 100] on [__int64] truncates
    toward zero. *)
Definition GetDuration : result Z :=
  let ns := Segment_GetDuration trk in
  do _ <- assert NDEBUG (Ok (ns >=? 0)) ;
  let d := Z.quot ns 100 in
  Ok d.

(** Stream::GetAvailable (lines 106-131). [pLatest] is the caller's pointer,
    [Some] of what it points at; the result is the HRESULT and what it points
    at afterwards. [pLast] is what [Segment::GetLast] answers. *)
Definition GetAvailable (pLast : option Cluster) (pLatest : option Z)
  : result (Z * option Z) :=
  match pLatest with
  | None => Ok (E_POINTER, None)
  | Some _ =>
      do pos <-
        (if Segment_Unparsed trk <=? 0 then GetDuration
         else
           match pLast with
           | None => Ok 0
           | Some c =>
               if Cluster_EOS trk c then Ok 0
               else
                 let ns := Cluster_GetTime trk c in
                 Ok (Z.quot ns 100)
           end) ;
      Ok (S_OK, Some pos)
  end.

(** Stream::GetCurrTime (lines 140-161); [GetCurrPosition] (lines 134-137)
    returns it. *)
Definition GetCurrTime (s : Stream Cluster BlockEntry) : result Z :=
  match m_pCurr s with
  | None => Ok 0
  | Some e =>
      if BlockEntry_EOS trk e then GetDuration
      else
        do ns <- entry_time NDEBUG trk true (m_pCurr s) ;
        let reftime := Z.quot ns 100 in
        Ok reftime
  end.

Definition GetCurrPosition (s : Stream Cluster BlockEntry) : result Z :=
  GetCurrTime s.

(** Stream::GetStopTime (lines 170-185); [GetStopPosition] (lines 164-167)
    returns it. *)
Definition GetStopTime (s : Stream Cluster BlockEntry) : result Z :=
  match m_pStop s with
  | None => GetDuration
  | Some e =>
      if BlockEntry_EOS trk e then GetDuration
      else
        do ns <- entry_time NDEBUG trk true (m_pStop s) ;
        let reftime := Z.quot ns 100 in
        Ok reftime
  end.

Definition GetStopPosition (s : Stream Cluster BlockEntry) : result Z :=
  GetStopTime s.

(** Stream::GetSeekTime (lines 188-234). *)
Definition GetSeekTime (currpos_reftime dwCurr_ : Z) (s : Stream Cluster BlockEntry)
  : result Z :=
  let dwCurrPos := Z.land dwCurr_ AM_SEEKING_PositioningBitsMask in
  do _ <- assert NDEBUG (Ok (negb (dwCurrPos =? AM_SEEKING_NoPositioning))) ;
  let duration_ns := Segment_GetDuration trk in
  do _ <- assert NDEBUG (Ok (duration_ns >=? 0)) ;
  let currpos_ns := wrap64 (currpos_reftime * 100) in
  if dwCurrPos =? AM_SEEKING_AbsolutePositioning then
    Ok currpos_ns
  else if dwCurrPos =? AM_SEEKING_RelativePositioning then
    match m_pCurr s with
    | None => Ok currpos_ns
    | Some e =>
        if BlockEntry_EOS trk e then Ok (wrap64 (duration_ns + currpos_ns))
        else
          do t <- entry_time NDEBUG trk true (m_pCurr s) ;
          Ok (wrap64 (t + currpos_ns))
    end
  else
    do _ <- assert NDEBUG (Ok false) ;
    Ok 0.

(** Stream::GetSeekBase (lines 237-282). Lines 266-270 and 277-281 end
    alike. *)
Definition GetSeekBase_at (pBE : option BlockEntry) : result (option Cluster) :=
  do _ <- assert NDEBUG (Ok (nonnull pBE)) ;
  do _ <- assert NDEBUG (do e <- deref pBE ; Ok (negb (BlockEntry_EOS trk e))) ;
  do e <- deref pBE ;
  Ok (BlockEntry_GetCluster trk e).

Definition GetSeekBase (tCurr_ns : Z) (use_cues : bool) : result (option Cluster) :=
  if Segment_GetCount trk =? 0 then
    if Segment_Unparsed trk <=? 0 then Ok (Some (Segment_m_eos trk))
    else Ok None
  else if tCurr_ns <=? 0 then Ok None
  else if tCurr_ns >=? Segment_GetDuration trk then Ok (Some (Segment_m_eos trk))
  else GetSeekBase_at (Seek_lookup trk tCurr_ns use_cues).

End Reporting.

(** ** A small container to run the model on

    One track; objects are numbered. Clusters 0 (starts at 0 ns) and 1
    (starts at 4 s), cluster 2 is the segment's end-of-stream cluster. Block
    entries 0 and 1 sit in cluster 0 (at 0 ns and 1 s), entry 2 in cluster 1
    (at 4 s), entry 3 is the track's end-of-stream entry. [loaded] is the
    number of block entries parsed so far (0 to 3); the rest of the file is
    still unparsed. *)

Module Toy.

Definition sec : Z := 1000000000.

Definition not_full : Z := -3.

Definition clusters (loaded : nat) : Z :=
  match loaded with
  | O => 0
  | 1%nat | 2%nat => 1
  | _ => 2
  end.

Definition time_of (e : nat) : Z :=
  match e with
  | 0%nat => 0
  | 1%nat => sec
  | _ => 4 * sec
  end.

Definition cluster_of (e : nat) : nat :=
  match e with
  | 0%nat | 1%nat => 0%nat
  | 2%nat => 1%nat
  | _ => 2%nat
  end.

Definition track (duration : Z) (loaded : nat)
  : Track nat nat nat unit nat nat :=
  {| E_BUFFER_NOT_FULL := not_full;
     Track_GetEOS := 3%nat;
     Track_GetFirst :=
       if (loaded =? 0)%nat then (not_full, None) else (0, Some 0%nat);
     Track_GetNext := fun p =>
       match p with
       | None => (-1, None)
       | Some e =>
           if (S e <? loaded)%nat then (0, Some (S e))
           else if (loaded <? 3)%nat then (not_full, None)
           else (1, Some 3%nat)
       end;
     Segment_GetDuration := duration;
     Segment_GetCount := clusters loaded;
     Segment_Unparsed := if (loaded <? 3)%nat then 4096 else 0;
     Segment_m_eos := 2%nat;
     Segment_GetCues := Some tt;
     Segment_Seek := fun t =>
       if (4 * sec <=? t) && (3 <=? loaded)%nat then Some 2%nat
       else if (sec <=? t) && (2 <=? loaded)%nat then Some 1%nat
       else Some 0%nat;
     Segment_GetFirst := if (loaded =? 0)%nat then Some 2%nat else Some 0%nat;
     Segment_GetNext := fun p =>
       match p with
       | Some 0%nat => if (3 <=? loaded)%nat then Some 1%nat else Some 2%nat
       | _ => Some 2%nat
       end;
     Segment_FindCluster := fun t =>
       if (4 * sec <=? t) && (3 <=? loaded)%nat then Some 1%nat else Some 0%nat;
     Cues_Find := fun _ t =>
       if (4 * sec <=? t) && (3 <=? loaded)%nat then Some (1%nat, 0%nat)
       else if 0 <=? t then Some (0%nat, 0%nat)
       else None;
     Cues_GetBlock := fun _ pCP _ =>
       match pCP with
       | 0%nat => Some 0%nat
       | _ => Some 2%nat
       end;
     Cluster_EOS := fun c => (2 <=? c)%nat;
     Cluster_GetTime := fun c =>
       match c with
       | 0%nat => 0
       | _ => 4 * sec
       end;
     Cluster_GetEntry := fun c =>
       match c with
       | 0%nat => Some 0%nat
       | 1%nat => Some 2%nat
       | _ => Some 3%nat
       end;
     BlockEntry_EOS := fun e => (3 <=? e)%nat;
     BlockEntry_GetBlock := fun e => if (e <? 3)%nat then Some e else None;
     BlockEntry_GetCluster := fun e => Some (cluster_of e);
     Block_GetTime := fun b _ => time_of b |}.

(** A sink that answers [verdict] to every sample; no preroll. *)
Definition hooks (verdict : Z) : Hooks nat nat nat :=
  {| SendPreroll := Stream_SendPreroll;
     OnPopulateSample := fun _ _ _ => verdict |}.

Definition fields (d : bool) (curr stop : option nat) (base : option nat)
  : Stream nat nat :=
  {| m_bDiscontinuity := d; m_pCurr := curr; m_pStop := stop; m_pBase := base |}.

End Toy.

(** The same container with the block of entry 1 at another time. *)
Module Toy2.

Definition retime (trk : Track nat nat nat unit nat nat) (t1 : Z)
  : Track nat nat nat unit nat nat :=
  {| E_BUFFER_NOT_FULL := E_BUFFER_NOT_FULL trk;
     Track_GetEOS := Track_GetEOS trk;
     Track_GetFirst := Track_GetFirst trk;
     Track_GetNext := Track_GetNext trk;
     Segment_GetDuration := Segment_GetDuration trk;
     Segment_GetCount := Segment_GetCount trk;
     Segment_Unparsed := Segment_Unparsed trk;
     Segment_m_eos := Segment_m_eos trk;
     Segment_GetCues := Segment_GetCues trk;
     Segment_Seek := Segment_Seek trk;
     Segment_GetFirst := Segment_GetFirst trk;
     Segment_GetNext := Segment_GetNext trk;
     Segment_FindCluster := Segment_FindCluster trk;
     Cues_Find := Cues_Find trk;
     Cues_GetBlock := Cues_GetBlock trk;
     Cluster_EOS := Cluster_EOS trk;
     Cluster_GetTime := Cluster_GetTime trk;
     Cluster_GetEntry := Cluster_GetEntry trk;
     BlockEntry_EOS := BlockEntry_EOS trk;
     BlockEntry_GetBlock := BlockEntry_GetBlock trk;
     BlockEntry_GetCluster := BlockEntry_GetCluster trk;
     Block_GetTime := fun b c =>
       if (b =? 1)%nat then t1 else Block_GetTime trk b c |}.

End Toy2.

Example toy_first_pull :
  PopulateSample false (Toy.track (5 * Toy.sec) 3) (Toy.hooks S_OK) (Some 7%nat)
    (Stream_ctor (Toy.track (5 * Toy.sec) 3))
  = Ok (S_OK,
        [ {| seen := Toy.fields true (Some 0%nat) (Some 3%nat) (Some 0%nat);
             pNext := Some 1%nat; answer := S_OK |} ],
        Toy.fields false (Some 1%nat) (Some 3%nat) (Some 0%nat)).
Proof. vm_compute. reflexivity. Qed.

(** * Properties *)

Section Properties.

Context {Cluster BlockEntry Block Cues CuePoint TrackPosition IMediaSample : Type}.
Context `{!EqDecision Cluster, !EqDecision BlockEntry}.

Variable NDEBUG : bool.
Variable trk : Track Cluster BlockEntry Block Cues CuePoint TrackPosition.
Variable hooks : Hooks Cluster BlockEntry IMediaSample.

Abbreviation fields := (Stream Cluster BlockEntry).

(** ** The pull loop at the stop position *)

Lemma PopulateSample_next_at_stop (smp : IMediaSample) (s : fields) (e : BlockEntry) :
  m_pCurr s = Some e ->
  m_pStop s = Some e ->
  PopulateSample_next NDEBUG trk hooks smp s = Ok (S_FALSE, [], s).
Proof.
  intros Hcurr Hstop. unfold PopulateSample_next.
  rewrite Hstop, Hcurr. cbn.
  rewrite bool_decide_true by reflexivity. reflexivity.
Qed.

Lemma PopulateSample_at_stop (smp : IMediaSample) (s : fields) (e : BlockEntry) :
  m_pCurr s = Some e ->
  m_pStop s = Some e ->
  SendPreroll hooks smp = false ->
  PopulateSample NDEBUG trk hooks (Some smp) s = Ok (S_FALSE, [], s).
Proof.
  intros Hcurr Hstop Hpre. unfold PopulateSample.
  rewrite Hpre, Hcurr. now apply PopulateSample_next_at_stop with e.
Qed.

(** ** Assertions *)

Lemma assert_holds (b : bool) :
  (NDEBUG = false -> b = true) ->
  assert NDEBUG (Ok b) = Ok tt.
Proof.
  unfold assert. destruct NDEBUG; [reflexivity|].
  intros H. rewrite H by reflexivity. reflexivity.
Qed.

Lemma assert_ok (c : result bool) :
  (NDEBUG = false -> c = Ok true) ->
  assert NDEBUG c = Ok tt.
Proof.
  unfold assert. destruct NDEBUG; [reflexivity|].
  intros H. rewrite H by reflexivity. reflexivity.
Qed.

Lemma assert_returns (c : result bool) :
  assert NDEBUG c = Ok tt \/ assert NDEBUG c = AssertionFailed
  \/ assert NDEBUG c = NullDereference.
Proof.
  unfold assert. destruct NDEBUG; [now left|].
  destruct c as [[|]| |]; cbn; auto.
Qed.

(** An assertion at the head of a call that is known to have returned. *)
Ltac pass_assert :=
  match goal with
  | |- result_bind (assert _ ?c) _ = Ok _ -> _ =>
      destruct (assert_returns c) as [-> | [-> | ->]];
      cbn [result_bind]; [|discriminate|discriminate]
  end.

(** ** Seek *)

Lemma Seek_at_fields (p : option BlockEntry) (s : fields) (r : option Cluster) (s' : fields) :
  Seek_at NDEBUG trk p s = Ok (r, s') ->
  m_bDiscontinuity s' = m_bDiscontinuity s /\ m_pStop s' = m_pStop s /\
  m_pCurr s' = p /\ m_pBase s' = r.
Proof.
  unfold Seek_at. cbn [m_pCurr set_m_pCurr].
  destruct (assert_returns (Ok (nonnull p))) as [-> | [-> | ->]]; cbn; try discriminate.
  destruct (assert_returns
              (do c <- deref p; Ok (negb (BlockEntry_EOS trk c)))) as [-> | [-> | ->]];
    cbn; try discriminate.
  destruct p as [e|]; cbn; [|discriminate].
  intros [= <- <-]. cbn. auto.
Qed.

Lemma Seek_at_returns (e : BlockEntry) (s : fields) :
  (NDEBUG = false -> BlockEntry_EOS trk e = false) ->
  Seek_at NDEBUG trk (Some e) s
  = Ok (BlockEntry_GetCluster trk e,
        set_m_pBase (BlockEntry_GetCluster trk e) (set_m_pCurr (Some e) s)).
Proof.
  intros Heos. unfold Seek_at. cbn [m_pCurr set_m_pCurr nonnull deref result_bind].
  rewrite assert_holds by reflexivity. cbn [result_bind].
  rewrite assert_holds by (intros H; rewrite Heos by exact H; reflexivity).
  reflexivity.
Qed.

(** Whatever the parser answers, a [Seek] that returns has raised the flag
    and has not touched [stop]. *)
Lemma Seek_returns_discontinuity (t : Z) (use_cues : bool) (s : fields)
    (r : option Cluster) (s' : fields) :
  Seek NDEBUG trk t use_cues s = Ok (r, s') ->
  m_bDiscontinuity s' = true /\ m_pStop s' = m_pStop s.
Proof.
  unfold Seek.
  destruct (assert_returns (Ok (0 <=? Segment_GetDuration trk))) as [-> | [-> | ->]];
    cbn [result_bind]; try discriminate.
  destruct (Segment_GetCount trk =? 0).
  { destruct (Segment_Unparsed trk <=? 0); intros [= <- <-]; cbn; auto. }
  destruct (t <=? 0); [intros [= <- <-]; cbn; auto|].
  destruct (t >=? Segment_GetDuration trk); [intros [= <- <-]; cbn; auto|].
  intros H. apply Seek_at_fields in H. cbn in H. tauto.
Qed.

(** C2 (as amended). With at least one cluster loaded (and a non-negative
    duration, which [Seek] asserts): a target [<= 0] makes [Seek] return null
    with [base] and [curr] null; a target that is [> 0] and [>= duration]
    makes it return the segment's end-of-stream cluster with [curr] the
    track's end-of-stream entry. The [<= 0] test comes first, so a target of
    0 on a segment of duration 0 gives null. *)
Theorem Seek_boundaries (t : Z) (use_cues : bool) (s : fields) :
  Segment_GetCount trk <> 0 ->
  (NDEBUG = false -> 0 <= Segment_GetDuration trk) ->
  (t <= 0 ->
   Seek NDEBUG trk t use_cues s
   = Ok (None, {| m_bDiscontinuity := true; m_pCurr := None;
                  m_pStop := m_pStop s; m_pBase := None |})) /\
  (0 < t -> Segment_GetDuration trk <= t ->
   Seek NDEBUG trk t use_cues s
   = Ok (Some (Segment_m_eos trk),
         {| m_bDiscontinuity := true; m_pCurr := Some (Track_GetEOS trk);
            m_pStop := m_pStop s; m_pBase := Some (Segment_m_eos trk) |})).
Proof.
  intros Hcount Hdur. unfold Seek.
  rewrite assert_holds by (intros H; apply Z.leb_le; auto).
  cbn [result_bind].
  destruct (Z.eqb_spec (Segment_GetCount trk) 0) as [|_]; [contradiction|].
  split.
  - intros Ht. rewrite (proj2 (Z.leb_le t 0) Ht). reflexivity.
  - intros Hpos Hend.
    destruct (Z.leb_spec t 0) as [|_]; [lia|].
    rewrite (proj2 (Z.geb_le t (Segment_GetDuration trk)) Hend). reflexivity.
Qed.

(** C9. Every call of [Seek] returns with [discontinuity = true] (and [stop]
    untouched): on the empty-container, [target <= 0] and
    [target >= duration] returns nothing is asked of the parser; on the
    lookup path the parser must hand back an entry, as [Seek] dereferences
    it, and a non-end-of-stream one where the assertion is compiled in.
    Nothing depends on the fields before the call, so a seek to the position
    the cursor already occupies raises the flag as well. *)
Theorem Seek_sets_discontinuity (t : Z) (use_cues : bool) (s : fields) :
  (NDEBUG = false -> 0 <= Segment_GetDuration trk) ->
  (Segment_GetCount trk <> 0 -> 0 < t < Segment_GetDuration trk ->
   exists e, Seek_lookup trk t use_cues = Some e /\
             (NDEBUG = false -> BlockEntry_EOS trk e = false)) ->
  exists r s', Seek NDEBUG trk t use_cues s = Ok (r, s') /\
               m_bDiscontinuity s' = true /\ m_pStop s' = m_pStop s.
Proof.
  intros Hdur Hlookup.
  assert (Hret : exists r s', Seek NDEBUG trk t use_cues s = Ok (r, s')).
  { unfold Seek.
    rewrite assert_holds by (intros H; apply Z.leb_le; auto).
    cbn [result_bind].
    destruct (Z.eqb_spec (Segment_GetCount trk) 0) as [|Hcount].
    { destruct (Segment_Unparsed trk <=? 0); eauto. }
    destruct (Z.leb_spec t 0) as [|Hpos]; [eauto|].
    destruct (Z.geb_spec t (Segment_GetDuration trk)) as [|Hend]; [eauto|].
    destruct (Hlookup Hcount (conj Hpos Hend)) as (e & -> & Heos).
    rewrite (Seek_at_returns e _ Heos). eauto. }
  destruct Hret as (r & s' & Hret). exists r, s'. split; [exact Hret|].
  exact (Seek_returns_discontinuity _ _ _ _ _ Hret).
Qed.

(** ** SetStopPosition *)

Lemma wrap64_in_range (z : Z) :
  - 2 ^ 63 <= z < 2 ^ 63 -> wrap64 z = z.
Proof.
  intros H. unfold wrap64. rewrite Z.mod_small by lia. lia.
Qed.

Lemma SetStopPosition_tCurr_reads (dw : Z) (s : fields) (tCurr : Z) :
  reaches_switch NDEBUG trk dw s tCurr ->
  SetStopPosition_tCurr NDEBUG trk s = Ok tCurr.
Proof.
  intros (_ & _ & Ht & Hdbg). unfold SetStopPosition_tCurr, entry_time.
  destruct (m_pCurr s) as [e|]; [|now subst].
  destruct Ht as (b & Hb & ->). cbn. rewrite Hb. cbn.
  rewrite assert_holds; [reflexivity|].
  intros Hd. apply Z.geb_le. destruct (Hdbg Hd) as (_ & H0 & _). exact H0.
Qed.

(** Past the prologue, the call is the [switch] followed by lines 506-528. *)
Lemma SetStopPosition_past_prologue (off dw : Z) (s : fields) (tCurr : Z) :
  reaches_switch NDEBUG trk dw s tCurr ->
  SetStopPosition NDEBUG trk off dw s
  = do x <- SetStopPosition_switch NDEBUG trk
              (Z.land dw AM_SEEKING_PositioningBitsMask) off tCurr
              (Segment_GetDuration trk) s ;
    match x with
    | Return s' => Ok s'
    | Break tStop =>
        SetStopPosition_resolve NDEBUG trk tCurr (Segment_GetDuration trk)
          (pCurrCluster trk s) tStop s
    end.
Proof.
  intros H. pose proof (SetStopPosition_tCurr_reads _ _ _ H) as Ht.
  destruct H as (Hcount & Heos & _ & Hdbg).
  unfold SetStopPosition.
  rewrite assert_holds.
  2:{ intros Hd. destruct (Hdbg Hd) as (Hm & _).
      apply negb_true_iff, Z.eqb_neq. exact Hm. }
  cbn [result_bind].
  destruct (Z.eqb_spec (Segment_GetCount trk) 0) as [|_]; [contradiction|].
  rewrite Heos, Ht. cbn [result_bind].
  rewrite assert_holds.
  2:{ intros Hd. destruct (Hdbg Hd) as (_ & _ & _ & c & -> & _). reflexivity. }
  cbn [result_bind]. rewrite assert_ok.
  2:{ intros Hd. destruct (Hdbg Hd) as (_ & _ & _ & c & -> & Hc & _). cbn.
      rewrite Hc. reflexivity. }
  cbn [result_bind]. rewrite assert_ok.
  2:{ intros Hd. destruct (Hdbg Hd) as (_ & _ & _ & c & -> & _ & Hc). cbn.
      f_equal. apply Z.geb_le. exact Hc. }
  cbn [result_bind]. rewrite assert_holds.
  2:{ intros Hd. destruct (Hdbg Hd) as (_ & _ & Hdur & _). apply Z.geb_le. exact Hdur. }
  reflexivity.
Qed.

Lemma SetStopPosition_resolve_at_curr (tCurr dur : Z) (pCC : option Cluster)
    (tStop : Z) (s : fields) :
  tStop <= tCurr ->
  SetStopPosition_resolve NDEBUG trk tCurr dur pCC tStop s
  = Ok (set_m_pStop (m_pCurr s) s).
Proof.
  intros H. unfold SetStopPosition_resolve.
  rewrite (proj2 (Z.leb_le tStop tCurr) H). reflexivity.
Qed.

Lemma SetStopPosition_resolve_at_end (tCurr dur : Z) (pCC : option Cluster)
    (tStop : Z) (s : fields) :
  tCurr < tStop -> dur <= tStop ->
  SetStopPosition_resolve NDEBUG trk tCurr dur pCC tStop s
  = Ok (set_m_pStop (Some (Track_GetEOS trk)) s).
Proof.
  intros H1 H2. unfold SetStopPosition_resolve.
  destruct (Z.leb_spec tStop tCurr) as [|_]; [lia|].
  rewrite (proj2 (Z.geb_le tStop dur) H2). reflexivity.
Qed.




(** C4. Past the prologue, the stop target handed to the clamp and the
    cluster lookup is: in Absolute mode the caller's reftime value itself,
    not multiplied by 100; in Relative mode the previous stop time (the
    duration when [stop] is null or end of stream) plus the value times 100;
    in Incremental mode with a positive value the current time plus the
    value times 100. Products and sums are 64-bit; within range they are the
    plain ones. *)
Theorem SetStopPosition_target_units (off dw : Z) (s : fields) (tCurr : Z) :
  reaches_switch NDEBUG trk dw s tCurr ->
  let mode := Z.land dw AM_SEEKING_PositioningBitsMask in
  let target := fun tStop =>
    SetStopPosition_resolve NDEBUG trk tCurr (Segment_GetDuration trk)
      (pCurrCluster trk s) tStop s in
  (mode = AM_SEEKING_AbsolutePositioning ->
   SetStopPosition NDEBUG trk off dw s = target off) /\
  (mode = AM_SEEKING_RelativePositioning ->
   negb (nonnull (m_pStop s)) || at_EOS trk (m_pStop s) = true ->
   SetStopPosition NDEBUG trk off dw s
   = target (wrap64 (Segment_GetDuration trk + wrap64 (off * 100)))) /\
  (mode = AM_SEEKING_RelativePositioning ->
   forall e b, m_pStop s = Some e -> BlockEntry_EOS trk e = false ->
     BlockEntry_GetBlock trk e = Some b ->
     SetStopPosition NDEBUG trk off dw s
     = target (wrap64 (Block_GetTime trk b (BlockEntry_GetCluster trk e)
                       + wrap64 (off * 100)))) /\
  (mode = AM_SEEKING_IncrementalPositioning -> 0 < off ->
   SetStopPosition NDEBUG trk off dw s
   = target (wrap64 (tCurr + wrap64 (off * 100)))) /\
  (- 2 ^ 63 <= off * 100 < 2 ^ 63 -> wrap64 (off * 100) = off * 100).
Proof.
  intros Hpre mode target. subst mode target.
  rewrite (SetStopPosition_past_prologue off dw s tCurr Hpre).
  repeat split.
  - intros ->. reflexivity.
  - intros -> Hstop. unfold SetStopPosition_switch.
    change (AM_SEEKING_RelativePositioning =? AM_SEEKING_AbsolutePositioning) with false.
    change (AM_SEEKING_RelativePositioning =? AM_SEEKING_RelativePositioning) with true.
    cbv iota. rewrite Hstop. reflexivity.
  - intros -> e b He Heos Hb. unfold SetStopPosition_switch.
    change (AM_SEEKING_RelativePositioning =? AM_SEEKING_AbsolutePositioning) with false.
    change (AM_SEEKING_RelativePositioning =? AM_SEEKING_RelativePositioning) with true.
    cbv iota. rewrite He. cbn [nonnull negb orb at_EOS]. rewrite Heos.
    unfold entry_time. cbn [deref result_bind]. rewrite Hb.
    rewrite assert_holds by reflexivity. reflexivity.
  - intros -> Hoff. unfold SetStopPosition_switch.
    change (AM_SEEKING_IncrementalPositioning =? AM_SEEKING_AbsolutePositioning) with false.
    change (AM_SEEKING_IncrementalPositioning =? AM_SEEKING_RelativePositioning) with false.
    change (AM_SEEKING_IncrementalPositioning =? AM_SEEKING_IncrementalPositioning) with true.
    cbv iota. destruct (Z.leb_spec off 0) as [|_]; [lia|]. reflexivity.
  - apply wrap64_in_range.
Qed.

(** C5. Once the mode-specific target [tStop] is computed (the current time
    being 0 for a null [curr], else the current block's time): if
    [tStop <= tCurr], [stop] becomes [curr] and the call returns; otherwise,
    if [tStop >= duration], [stop] becomes the track's end-of-stream entry
    and the call returns. No other field changes. *)
Theorem SetStopPosition_clamps (off dw : Z) (s : fields) (tCurr tStop : Z) :
  reaches_switch NDEBUG trk dw s tCurr ->
  SetStopPosition_switch NDEBUG trk (Z.land dw AM_SEEKING_PositioningBitsMask)
    off tCurr (Segment_GetDuration trk) s = Ok (Break tStop) ->
  (tStop <= tCurr ->
   SetStopPosition NDEBUG trk off dw s = Ok (set_m_pStop (m_pCurr s) s)) /\
  (tCurr < tStop -> Segment_GetDuration trk <= tStop ->
   SetStopPosition NDEBUG trk off dw s
   = Ok (set_m_pStop (Some (Track_GetEOS trk)) s)).
Proof.
  intros Hpre Hsw.
  rewrite (SetStopPosition_past_prologue off dw s tCurr Hpre), Hsw.
  cbn [result_bind]. split.
  - apply SetStopPosition_resolve_at_curr.
  - apply SetStopPosition_resolve_at_end.
Qed.

(** C6. In Incremental mode with a value [<= 0], clusters loaded and [curr]
    not at end of stream: a call that returns has set [stop] to [curr] and
    changed nothing else, whatever the duration and the cluster lookup
    functions are (the duration is read ahead of the [switch], by an
    assertion only; no target is computed and no cluster is looked up); and
    the call does return once the prologue is passed. In particular a value
    of 0 gives [stop = curr]. *)
Theorem SetStopPosition_incremental_nonpositive (off dw : Z) (s : fields) :
  Segment_GetCount trk <> 0 ->
  at_EOS trk (m_pCurr s) = false ->
  Z.land dw AM_SEEKING_PositioningBitsMask = AM_SEEKING_IncrementalPositioning ->
  off <= 0 ->
  (forall s', SetStopPosition NDEBUG trk off dw s = Ok s' ->
              s' = set_m_pStop (m_pCurr s) s) /\
  (forall tCurr, reaches_switch NDEBUG trk dw s tCurr ->
                 SetStopPosition NDEBUG trk off dw s
                 = Ok (set_m_pStop (m_pCurr s) s)).
Proof.
  intros Hcount Heos Hmode Hoff.
  assert (Hsw : forall tCurr,
    SetStopPosition_switch NDEBUG trk (Z.land dw AM_SEEKING_PositioningBitsMask)
      off tCurr (Segment_GetDuration trk) s
    = Ok (Return (set_m_pStop (m_pCurr s) s))).
  { intros tCurr. rewrite Hmode. unfold SetStopPosition_switch.
    change (AM_SEEKING_IncrementalPositioning =? AM_SEEKING_AbsolutePositioning) with false.
    change (AM_SEEKING_IncrementalPositioning =? AM_SEEKING_RelativePositioning) with false.
    change (AM_SEEKING_IncrementalPositioning =? AM_SEEKING_IncrementalPositioning) with true.
    cbv iota. rewrite (proj2 (Z.leb_le off 0) Hoff). reflexivity. }
  split.
  - intros s'. unfold SetStopPosition.
    pass_assert.
    destruct (Z.eqb_spec (Segment_GetCount trk) 0) as [|_]; [contradiction|].
    rewrite Heos.
    destruct (SetStopPosition_tCurr NDEBUG trk s) as [tCurr| |];
      cbn [result_bind]; try discriminate.
    do 4 pass_assert.
    rewrite Hsw. cbn [result_bind]. now intros [= <-].
  - intros tCurr Hpre.
    rewrite (SetStopPosition_past_prologue off dw s tCurr Hpre), Hsw.
    reflexivity.
Qed.

(** ** PopulateSample *)

Lemma set_m_pCurr_same (s : fields) : set_m_pCurr (m_pCurr s) s = s.
Proof. now destruct s. Qed.

(** Every way lines 585-627 return. *)
Lemma PopulateSample_next_cases (smp : IMediaSample) (s : fields)
    (hr : Z) (sent : list (Delivery Cluster BlockEntry)) (s' : fields) :
  PopulateSample_next NDEBUG trk hooks smp s = Ok (hr, sent, s') ->
  (hr = S_FALSE /\ sent = [] /\ s' = s) \/
  (hr = VFW_E_BUFFER_UNDERFLOW /\ sent = [] /\ s' = s /\
   fst (Track_GetNext trk (m_pCurr s)) = E_BUFFER_NOT_FULL trk) \/
  (exists d,
     sent = [d] /\ seen d = s /\
     pNext d = snd (Track_GetNext trk (m_pCurr s)) /\
     fst (Track_GetNext trk (m_pCurr s)) <> E_BUFFER_NOT_FULL trk /\
     answer d = OnPopulateSample hooks s (pNext d) smp /\
     ((answer d <> S_OK /\ hr = 2 /\ s' = set_m_pCurr (pNext d) s) \/
      (answer d = S_OK /\ hr = S_OK /\
       s' = set_m_bDiscontinuity false (set_m_pCurr (pNext d) s)))).
Proof.
  unfold PopulateSample_next.
  destruct (if negb (nonnull (m_pStop s))
            then do c <- deref (m_pCurr s); Ok (BlockEntry_EOS trk c)
            else Ok (bool_decide (m_pCurr s = m_pStop s))) as [[|]| |];
    cbn [result_bind]; try discriminate.
  { intros [= <- <- <-]. auto. }
  destruct (Track_GetNext trk (m_pCurr s)) as [status nb]. cbn [fst snd].
  destruct (Z.eqb_spec status (E_BUFFER_NOT_FULL trk)) as [->|Hstatus].
  { intros [= <- <- <-]. right; left. auto. }
  do 3 pass_assert.
  destruct (Z.eqb_spec (OnPopulateSample hooks s nb smp) S_OK) as [Hok|Hrej];
    cbn [negb]; intros [= <- <- <-]; right; right;
    eexists; (split; [reflexivity|]); cbn [seen pNext answer]; intuition auto.
Qed.

(** The fields [PopulateSample] works on once the cursor is initialised
    (lines 571-583). *)
Lemma PopulateSample_cases (pSample : option IMediaSample) (s : fields)
    (hr : Z) (sent : list (Delivery Cluster BlockEntry)) (s' : fields) :
  PopulateSample NDEBUG trk hooks pSample s = Ok (hr, sent, s') ->
  (pSample = None /\ hr = E_INVALIDARG /\ sent = [] /\ s' = s) \/
  (exists smp, pSample = Some smp /\ SendPreroll hooks smp = true /\
               hr = S_OK /\ sent = [] /\ s' = s) \/
  (exists smp, pSample = Some smp /\ SendPreroll hooks smp = false /\
               m_pCurr s = None /\
               fst (Track_GetFirst trk) = E_BUFFER_NOT_FULL trk /\
               hr = VFW_E_BUFFER_UNDERFLOW /\ sent = [] /\
               s' = set_m_pCurr (snd (Track_GetFirst trk)) s) \/
  (exists smp, pSample = Some smp /\ SendPreroll hooks smp = false /\
               m_pCurr s = None /\
               fst (Track_GetFirst trk) <> E_BUFFER_NOT_FULL trk /\
               PopulateSample_next NDEBUG trk hooks smp
                 (set_m_pBase (Segment_GetFirst trk)
                    (set_m_pCurr (snd (Track_GetFirst trk)) s))
               = Ok (hr, sent, s')) \/
  (exists smp, pSample = Some smp /\ SendPreroll hooks smp = false /\
               m_pCurr s <> None /\
               PopulateSample_next NDEBUG trk hooks smp s = Ok (hr, sent, s')).
Proof.
  unfold PopulateSample. destruct pSample as [smp|].
  2:{ intros [= <- <- <-]. auto. }
  destruct (SendPreroll hooks smp) eqn:Hpre.
  { intros [= <- <- <-]. right; left. eauto 10. }
  destruct (m_pCurr s) as [e|] eqn:Hcurr.
  { intros H. do 4 right. exists smp. repeat split; auto; congruence. }
  destruct (Track_GetFirst trk) as [status first]. cbn [fst snd].
  destruct (Z.eqb_spec status (E_BUFFER_NOT_FULL trk)) as [->|Hstatus].
  { intros [= <- <- <-]. do 2 right; left. eauto 10. }
  do 3 pass_assert. intros H. do 3 right; left. eauto 10.
Qed.

(** C7 (as amended). When [PopulateSample] returns
    VFW_E_BUFFER_UNDERFLOW, nothing was handed to the sink and [stop] and the
    flag are as before. If the call began with [curr] set, all fields are as
    before. If it began with [curr] null, either [GetFirst] reported
    E_BUFFER_NOT_FULL, and then [base] is as before and [curr] is what
    [GetFirst] stored (all fields as before when that is null); or
    [GetFirst] succeeded, the underflow came from [GetNext], and the
    initialisation stays: [curr] is the first block entry and [base] the
    first cluster. *)
Theorem PopulateSample_underflow_frame (pSample : option IMediaSample) (s : fields)
    (sent : list (Delivery Cluster BlockEntry)) (s' : fields) :
  PopulateSample NDEBUG trk hooks pSample s
  = Ok (VFW_E_BUFFER_UNDERFLOW, sent, s') ->
  sent = [] /\
  m_pStop s' = m_pStop s /\
  m_bDiscontinuity s' = m_bDiscontinuity s /\
  (m_pCurr s <> None -> s' = s) /\
  (m_pCurr s = None ->
   (fst (Track_GetFirst trk) = E_BUFFER_NOT_FULL trk /\
    s' = set_m_pCurr (snd (Track_GetFirst trk)) s /\
    (snd (Track_GetFirst trk) = None -> s' = s)) \/
   (fst (Track_GetFirst trk) <> E_BUFFER_NOT_FULL trk /\
    s' = set_m_pBase (Segment_GetFirst trk)
           (set_m_pCurr (snd (Track_GetFirst trk)) s) /\
    fst (Track_GetNext trk (snd (Track_GetFirst trk))) = E_BUFFER_NOT_FULL trk)).
Proof.
  intros H. apply PopulateSample_cases in H.
  destruct H as [(_ & H & _) | [(smp & _ & _ & H & _) | [H | [H | H]]]];
    try discriminate H.
  - destruct H as (smp & _ & _ & Hcurr & Hfirst & _ & -> & ->).
    repeat split; try reflexivity; [congruence|].
    intros _. left. repeat split; auto.
    intros ->. rewrite <- Hcurr. apply set_m_pCurr_same.
  - destruct H as (smp & _ & _ & Hcurr & Hfirst & H).
    apply PopulateSample_next_cases in H.
    destruct H as [(H & _) | [(_ & -> & -> & Hnext) | (d & _ & _ & _ & _ & _ & H)]];
      [discriminate H | | destruct H as [(_ & H & _) | (_ & H & _)]; discriminate H].
    repeat split; try reflexivity; [congruence|].
    intros _. right. repeat split; auto.
  - destruct H as (smp & _ & _ & Hcurr & H).
    apply PopulateSample_next_cases in H.
    destruct H as [(H & _) | [(_ & -> & -> & Hnext) | (d & _ & _ & _ & _ & _ & H)]];
      [discriminate H | | destruct H as [(_ & H & _) | (_ & H & _)]; discriminate H].
    repeat split; try reflexivity. contradiction.
Qed.

(** What one call of [PopulateSample] does to the flag and the cursor, read
    off the calls it made to the sink. *)
Lemma PopulateSample_deliveries (pSample : option IMediaSample) (s : fields)
    (hr : Z) (sent : list (Delivery Cluster BlockEntry)) (s' : fields) :
  PopulateSample NDEBUG trk hooks pSample s = Ok (hr, sent, s') ->
  m_pStop s' = m_pStop s /\
  ((sent = [] /\ m_bDiscontinuity s' = m_bDiscontinuity s /\ hr <> 2) \/
   (exists d smp,
      sent = [d] /\ pSample = Some smp /\
      m_bDiscontinuity (seen d) = m_bDiscontinuity s /\
      m_pStop (seen d) = m_pStop s /\
      pNext d = snd (Track_GetNext trk (m_pCurr (seen d))) /\
      fst (Track_GetNext trk (m_pCurr (seen d))) <> E_BUFFER_NOT_FULL trk /\
      answer d = OnPopulateSample hooks (seen d) (pNext d) smp /\
      m_pCurr s' = pNext d /\
      ((answer d <> S_OK /\ hr = 2 /\
        m_bDiscontinuity s' = m_bDiscontinuity s) \/
       (answer d = S_OK /\ hr = S_OK /\ m_bDiscontinuity s' = false)))).
Proof.
  intros H. apply PopulateSample_cases in H.
  assert (Hnext : forall smp s0,
    m_pStop s0 = m_pStop s -> m_bDiscontinuity s0 = m_bDiscontinuity s ->
    pSample = Some smp ->
    PopulateSample_next NDEBUG trk hooks smp s0 = Ok (hr, sent, s') ->
    m_pStop s' = m_pStop s /\
    ((sent = [] /\ m_bDiscontinuity s' = m_bDiscontinuity s /\ hr <> 2) \/
     (exists d smp,
        sent = [d] /\ pSample = Some smp /\
        m_bDiscontinuity (seen d) = m_bDiscontinuity s /\
        m_pStop (seen d) = m_pStop s /\
        pNext d = snd (Track_GetNext trk (m_pCurr (seen d))) /\
        fst (Track_GetNext trk (m_pCurr (seen d))) <> E_BUFFER_NOT_FULL trk /\
        answer d = OnPopulateSample hooks (seen d) (pNext d) smp /\
        m_pCurr s' = pNext d /\
        ((answer d <> S_OK /\ hr = 2 /\
          m_bDiscontinuity s' = m_bDiscontinuity s) \/
         (answer d = S_OK /\ hr = S_OK /\ m_bDiscontinuity s' = false))))).
  { intros smp s0 Hstop Hflag Hsmp H0.
    apply PopulateSample_next_cases in H0.
    destruct H0 as [(-> & -> & ->) | [(-> & -> & -> & _) | H0]].
    - split; [exact Hstop|]. left. repeat split; auto; discriminate.
    - split; [exact Hstop|]. left. repeat split; auto; discriminate.
    - destruct H0 as (d & -> & Hseen & Hp & Hst & Ha & Hres).
      split; [destruct Hres as [(_ & _ & ->) | (_ & _ & ->)]; exact Hstop|].
      right. exists d, smp. rewrite Hseen.
      split; [reflexivity|]. split; [exact Hsmp|]. split; [exact Hflag|].
      split; [exact Hstop|]. split; [exact Hp|]. split; [exact Hst|].
      split; [exact Ha|].
      destruct Hres as [(Hrej & -> & ->) | (Hacc & -> & ->)];
        (split; [reflexivity|]); [left|right]; repeat split;
        solve [assumption | exact Hflag]. }
  destruct H as [(-> & -> & -> & ->) | [(smp & -> & _ & -> & -> & ->) | [H | [H | H]]]].
  - split; [reflexivity|]. left. repeat split; discriminate.
  - split; [reflexivity|]. left. repeat split; discriminate.
  - destruct H as (smp & -> & _ & _ & _ & -> & -> & ->).
    split; [reflexivity|]. left. repeat split; discriminate.
  - destruct H as (smp & Hsmp & _ & _ & _ & H).
    exact (Hnext smp (set_m_pBase (Segment_GetFirst trk)
                        (set_m_pCurr (snd (Track_GetFirst trk)) s))
             eq_refl eq_refl Hsmp H).
  - destruct H as (smp & Hsmp & _ & _ & H).
    exact (Hnext smp s eq_refl eq_refl Hsmp H).
Qed.



(** ** Sessions *)

Lemma SetStopPosition_switch_frame (mode off tCurr dur : Z) (s : fields)
    (x : switch_exit) :
  SetStopPosition_switch NDEBUG trk mode off tCurr dur s = Ok x ->
  match x with
  | Return s' => exists p, s' = set_m_pStop p s
  | Break _ => True
  end.
Proof.
  unfold SetStopPosition_switch.
  destruct (mode =? AM_SEEKING_AbsolutePositioning); [now intros [= <-]|].
  destruct (mode =? AM_SEEKING_RelativePositioning).
  { destruct (negb (nonnull (m_pStop s)) || at_EOS trk (m_pStop s));
      [now intros [= <-]|].
    destruct (entry_time NDEBUG trk true (m_pStop s)); cbn; try discriminate.
    now intros [= <-]. }
  destruct (mode =? AM_SEEKING_IncrementalPositioning).
  { destruct (off <=? 0); intros [= <-]; eauto. }
  pass_assert. intros [= <-]. exists (m_pStop s). now destruct s.
Qed.

(** [SetStopPosition] writes [m_pStop] and nothing else. *)
Lemma SetStopPosition_frame (off dw : Z) (s s' : fields) :
  SetStopPosition NDEBUG trk off dw s = Ok s' ->
  exists p, s' = set_m_pStop p s.
Proof.
  unfold SetStopPosition. pass_assert.
  destruct (Segment_GetCount trk =? 0); [intros [= <-]; eauto|].
  destruct (at_EOS trk (m_pCurr s)); [intros [= <-]; eauto|].
  destruct (SetStopPosition_tCurr NDEBUG trk s) as [tCurr| |];
    cbn [result_bind]; try discriminate.
  do 4 pass_assert.
  destruct (SetStopPosition_switch NDEBUG trk _ off tCurr _ s) as [x| |] eqn:Hsw;
    cbn [result_bind]; try discriminate.
  apply SetStopPosition_switch_frame in Hsw.
  destruct x as [tStop|s1]; [|intros [= <-]; exact Hsw].
  unfold SetStopPosition_resolve.
  destruct (tStop <=? tCurr); [intros [= <-]; eauto|].
  destruct (tStop >=? Segment_GetDuration trk); [intros [= <-]; eauto|].
  pass_assert.
  match goal with |- result_bind (deref ?p) _ = _ -> _ => destruct p as [c|] end;
    cbn [deref result_bind]; [|discriminate].
  pass_assert. intros [= <-]. eauto.
Qed.

(** One call from a state with the flag up: either nothing reaches the sink
    and the flag stays up, or one sample does, seen with the flag up, and the
    flag stays up unless the sink answered S_OK. *)
Lemma step_keeps_discontinuity (c : call Cluster IMediaSample) (s : fields)
    (hrs : list Z) (sent : list (Delivery Cluster BlockEntry)) (s' : fields) :
  step NDEBUG trk hooks c s = Ok (hrs, sent, s') ->
  m_bDiscontinuity s = true ->
  (sent = [] /\ m_bDiscontinuity s' = true) \/
  (exists d, sent = [d] /\ m_bDiscontinuity (seen d) = true /\
             (answer d <> S_OK -> m_bDiscontinuity s' = true)).
Proof.
  intros H Hup. destruct c as [|t use_cues|pBase|off dw| |pSample]; cbn [step] in H.
  - injection H as <- <- <-. now left.
  - destruct (Seek NDEBUG trk t use_cues s) as [[r s1]| |] eqn:Hseek;
      cbn in H; try discriminate.
    injection H as <- <- <-. left. split; [reflexivity|].
    now apply Seek_returns_discontinuity in Hseek.
  - injection H as <- <- <-. now left.
  - destruct (SetStopPosition NDEBUG trk off dw s) as [s1| |] eqn:Hstop;
      cbn in H; try discriminate.
    injection H as <- <- <-. left. split; [reflexivity|].
    apply SetStopPosition_frame in Hstop. destruct Hstop as (p & ->). exact Hup.
  - injection H as <- <- <-. now left.
  - destruct (PopulateSample NDEBUG trk hooks pSample s) as [[[hr sent1] s1]| |] eqn:Hpop;
      cbn in H; try discriminate.
    injection H as <- <- <-.
    apply PopulateSample_deliveries in Hpop.
    destruct Hpop as (_ & [(-> & Hflag & _) | (d & smp & -> & _ & Hseen & _ & _ & _ & _ & _ & Hres)]).
    + left. split; [reflexivity|]. congruence.
    + right. exists d. split; [reflexivity|]. split; [congruence|].
      intros Hrej. destruct Hres as [(_ & _ & Hflag) | (Hacc & _)]; [congruence|contradiction].
Qed.



End Properties.

Section Sessions.

Context {Cluster BlockEntry Block Cues CuePoint TrackPosition IMediaSample : Type}.
Context `{!EqDecision Cluster, !EqDecision BlockEntry}.

Variable NDEBUG : bool.
Variable hooks : Hooks Cluster BlockEntry IMediaSample.

Abbreviation parser := (Track Cluster BlockEntry Block Cues CuePoint TrackPosition).
Abbreviation fields := (Stream Cluster BlockEntry).

(** C1 (as amended). In every session state in which [curr] equals [stop]
    and is an actual block entry (not the null "uninitialized" value), every
    call of [PopulateSample] with a non-null sample whose preroll hook
    declines returns S_FALSE (EndOfStream), hands nothing to the sink and
    leaves all fields as they were; so any number of repeated calls return
    S_FALSE every time, with [curr], [base] and [stop] unchanged, however
    much of the container is loaded in between. *)
Theorem PopulateSample_stop_is_exclusive
    (pulls : list (parser * IMediaSample)) (s : fields) (e : BlockEntry) :
  m_pCurr s = Some e ->
  m_pStop s = Some e ->
  Forall (fun pull => SendPreroll hooks (snd pull) = false) pulls ->
  run NDEBUG hooks
    (map (fun pull => (fst pull, call_PopulateSample (Some (snd pull)))) pulls) s
  = Ok (repeat S_FALSE (length pulls), [], s).
Proof.
  intros Hcurr Hstop Hpre.
  induction Hpre as [|[trk smp] rest Hsmp _ IH]; [reflexivity|].
  cbn [map run step length repeat fst snd].
  rewrite (PopulateSample_at_stop NDEBUG trk hooks smp s e Hcurr Hstop Hsmp).
  cbn [result_bind]. rewrite IH. reflexivity.
Qed.

Lemma run_keeps_discontinuity (cs : list (parser * call Cluster IMediaSample)) :
  forall (s : fields) hrs sent s',
    run NDEBUG hooks cs s = Ok (hrs, sent, s') ->
    m_bDiscontinuity s = true ->
    forall pre d post,
      sent = pre ++ d :: post ->
      Forall (fun x => answer x <> S_OK) pre ->
      m_bDiscontinuity (seen d) = true.
Proof.
  induction cs as [|[trk c] cs IH]; intros s hrs sent s' H Hup pre d post Hsplit Hpre.
  - injection H as <- <- <-. now destruct pre.
  - cbn [run] in H.
    destruct (step NDEBUG trk hooks c s) as [[[hrs1 sent1] s1]| |] eqn:Hstep;
      cbn in H; try discriminate.
    destruct (run NDEBUG hooks cs s1) as [[[hrs2 sent2] s2]| |] eqn:Hrun;
      cbn in H; try discriminate.
    injection H as <- <- <-.
    destruct (step_keeps_discontinuity _ _ _ _ _ _ _ _ Hstep Hup)
      as [(-> & Hup1) | (d1 & -> & Hseen & Hkeep)].
    + exact (IH _ _ _ _ Hrun Hup1 pre d post Hsplit Hpre).
    + destruct pre as [|x pre']; cbn in Hsplit; injection Hsplit as <- Hrest.
      * exact Hseen.
      * inversion Hpre as [|? ? Hx Hpre']; subst.
        exact (IH _ _ _ _ Hrun (Hkeep Hx) pre' d post eq_refl Hpre').
Qed.

(** C10. [Init], and so the constructor, leaves [discontinuity = true],
    [curr = null], [base = null] and [stop] = the track's end-of-stream
    entry. In any session that starts there, whatever members are called, in
    whatever order and however the container is loaded in between, every
    sample handed to the sink up to and including the first one the sink
    answers S_OK to is handed over with the flag up. *)
Theorem Init_raises_discontinuity (trk : parser) (s0 : fields) :
  Init trk s0 = {| m_bDiscontinuity := true; m_pCurr := None;
                   m_pStop := Some (Track_GetEOS trk); m_pBase := None |} /\
  Stream_ctor trk = Init trk s0 /\
  forall (cs : list (parser * call Cluster IMediaSample)) hrs sent s',
    run NDEBUG hooks cs (Init trk s0) = Ok (hrs, sent, s') ->
    forall pre d post,
      sent = pre ++ d :: post ->
      Forall (fun x => answer x <> S_OK) pre ->
      m_bDiscontinuity (seen d) = true.
Proof.
  split; [reflexivity|]. split; [reflexivity|].
  intros cs hrs sent s' H. now apply (run_keeps_discontinuity cs _ _ _ _ H).
Qed.

End Sessions.

(** Witness of C1: three pulls with the cursor resting on the stop entry,
    the third block entry being loaded after the first pull. *)
Lemma PopulateSample_stop_is_exclusive_witness :
  run true (Toy.hooks S_OK)
    [ (Toy.track (5 * Toy.sec) 2, call_PopulateSample (Some 7%nat));
      (Toy.track (5 * Toy.sec) 3, call_PopulateSample (Some 8%nat));
      (Toy.track (5 * Toy.sec) 3, call_PopulateSample (Some 9%nat)) ]
    (Toy.fields false (Some 1%nat) (Some 1%nat) (Some 0%nat))
  = Ok ([S_FALSE; S_FALSE; S_FALSE], [],
        Toy.fields false (Some 1%nat) (Some 1%nat) (Some 0%nat)).
Proof.
  apply (PopulateSample_stop_is_exclusive true (Toy.hooks S_OK)
           [ (Toy.track (5 * Toy.sec) 2, 7%nat);
             (Toy.track (5 * Toy.sec) 3, 8%nat);
             (Toy.track (5 * Toy.sec) 3, 9%nat) ]
           (Toy.fields false (Some 1%nat) (Some 1%nat) (Some 0%nat)) 1%nat).
  - reflexivity.
  - reflexivity.
  - repeat constructor.
Defined.

(** C1 as stated fails when [curr] and [stop] are both null. The state is
    reached from a fresh stream by SetStopPosition(0, Incremental); the next
    pull initialises the cursor, delivers a block and returns S_OK. *)
Lemma PopulateSample_null_stop_counterexample :
  let trk := Toy.track (5 * Toy.sec) 3 in
  let s := Toy.fields true None None None in
  SetStopPosition false trk 0 AM_SEEKING_IncrementalPositioning (Stream_ctor trk) = Ok s
  /\ m_pCurr s = m_pStop s
  /\ SendPreroll (Toy.hooks S_OK) 7%nat = false
  /\ PopulateSample false trk (Toy.hooks S_OK) (Some 7%nat) s
     = Ok (S_OK,
           [ {| seen := Toy.fields true (Some 0%nat) None (Some 0%nat);
                pNext := Some 1%nat; answer := S_OK |} ],
           Toy.fields false (Some 1%nat) None (Some 0%nat))
  /\ S_OK <> S_FALSE.
Proof. vm_compute. repeat split. discriminate. Qed.

(** Witness of C2: a 5 s segment, targets 0 and 5 s. *)
Lemma Seek_boundaries_witness :
  let trk := Toy.track (5 * Toy.sec) 3 in
  let s := Toy.fields false (Some 1%nat) (Some 3%nat) (Some 0%nat) in
  Seek false trk 0 true s = Ok (None, Toy.fields true None (Some 3%nat) None)
  /\ Seek false trk (5 * Toy.sec) true s
     = Ok (Some 2%nat, Toy.fields true (Some 3%nat) (Some 3%nat) (Some 2%nat)).
Proof.
  intros trk s. split.
  - apply (Seek_boundaries false trk 0 true s); [discriminate | intros _; vm_compute; discriminate | lia].
  - apply (Seek_boundaries false trk (5 * Toy.sec) true s);
      [discriminate | intros _; vm_compute; discriminate | reflexivity | vm_compute; discriminate].
Defined.

(** C2 as stated fails for target 0 on a segment that has clusters but whose
    duration reads 0: the target is [>= duration], yet [Seek] returns null
    and leaves [curr] null rather than at the end-of-stream entry. *)
Lemma Seek_zero_duration_counterexample :
  let trk := Toy.track 0 3 in
  let s := Toy.fields false (Some 1%nat) (Some 3%nat) (Some 0%nat) in
  Segment_GetCount trk <> 0
  /\ 0 >= Segment_GetDuration trk
  /\ Seek false trk 0 true s = Ok (None, Toy.fields true None (Some 3%nat) None)
  /\ None <> Some (Segment_m_eos trk)
  /\ None <> Some (Track_GetEOS trk).
Proof. vm_compute. repeat split; discriminate. Qed.

(** Witness of C9: seeking to 1 s while the cursor already rests on the
    entry at 1 s, flag down. *)
Lemma Seek_sets_discontinuity_witness :
  let trk := Toy.track (5 * Toy.sec) 3 in
  let s := Toy.fields false (Some 1%nat) (Some 3%nat) (Some 0%nat) in
  exists r s', Seek false trk Toy.sec false s = Ok (r, s') /\
               m_bDiscontinuity s' = true /\ m_pStop s' = m_pStop s.
Proof.
  intros trk s.
  apply (Seek_sets_discontinuity false trk Toy.sec false s).
  - intros _; vm_compute; discriminate.
  - intros _ _. exists 1%nat. split; [reflexivity | intros _; reflexivity].
Defined.

(** The running example of the stop-position witnesses: a 5 s segment, all
    of it loaded, the cursor on the entry at 1 s of cluster 0. *)
Lemma toy_reaches_switch (dw : Z) (stop : option nat) :
  Z.land dw AM_SEEKING_PositioningBitsMask <> AM_SEEKING_NoPositioning ->
  reaches_switch false (Toy.track (5 * Toy.sec) 3) dw
    (Toy.fields false (Some 1%nat) stop (Some 0%nat)) Toy.sec.
Proof.
  intros Hmode. split; [discriminate|]. split; [reflexivity|]. split.
  - exists 1%nat. split; reflexivity.
  - intros _. split; [exact Hmode|]. split; [discriminate|].
    split; [discriminate|]. exists 0%nat.
    split; [reflexivity|]. split; [reflexivity|]. discriminate.
Qed.




(** [base] is written by the lazy initialisation, [Seek] and
    [SetCurrPosition] only; pulls leave it where it is. After two pulls on a
    fresh stream the cursor is on entry 2, in cluster 1, and [base] is still
    cluster 0, which is then the cluster [SetStopPosition] compares the
    looked-up cluster with: a target 0.5 s ahead resolves to the entry of
    cluster 1. *)
Example toy_base_stays_behind :
  let trk := Toy.track (5 * Toy.sec) 3 in
  match run false (Toy.hooks S_OK)
          [ (trk, call_PopulateSample (Some 7%nat));
            (trk, call_PopulateSample (Some 8%nat));
            (trk, call_SetStopPosition 5000000 AM_SEEKING_IncrementalPositioning) ]
          (Stream_ctor trk)
  with
  | Ok (hrs, _, s) => Some (hrs, s)
  | _ => None
  end
  = Some ([S_OK; S_OK], Toy.fields false (Some 2%nat) (Some 2%nat) (Some 0%nat)).
Proof. reflexivity. Qed.

(** Witness of C4: from 1 s, Absolute 30,000,000 is taken as 30,000,000 ns
    (0.03 s, not 3 s), which is before the cursor, so [stop] becomes [curr];
    Incremental 30,000,000 is 3 s after the cursor, 4 s, in cluster 1. *)
Lemma SetStopPosition_target_units_witness :
  let trk := Toy.track (5 * Toy.sec) 3 in
  let s := Toy.fields false (Some 1%nat) (Some 3%nat) (Some 0%nat) in
  SetStopPosition false trk 30000000 AM_SEEKING_AbsolutePositioning s
  = SetStopPosition_resolve false trk Toy.sec (5 * Toy.sec) (Some 0%nat) 30000000 s
  /\ SetStopPosition false trk 30000000 AM_SEEKING_IncrementalPositioning s
     = SetStopPosition_resolve false trk Toy.sec (5 * Toy.sec) (Some 0%nat)
         (Toy.sec + 30000000 * 100) s.
Proof.
  intros trk s. split.
  - apply (proj1 (SetStopPosition_target_units false trk 30000000
                    AM_SEEKING_AbsolutePositioning s Toy.sec
                    (toy_reaches_switch AM_SEEKING_AbsolutePositioning (Some 3%nat) ltac:(vm_compute; discriminate)))).
    reflexivity.
  - apply (proj1 (proj2 (proj2 (proj2
             (SetStopPosition_target_units false trk 30000000
                AM_SEEKING_IncrementalPositioning s Toy.sec
                (toy_reaches_switch AM_SEEKING_IncrementalPositioning (Some 3%nat) ltac:(vm_compute; discriminate))))))).
    + reflexivity.
    + reflexivity.
Defined.

Example toy_absolute_stop_before_cursor :
  let trk := Toy.track (5 * Toy.sec) 3 in
  let s := Toy.fields false (Some 1%nat) (Some 3%nat) (Some 0%nat) in
  SetStopPosition false trk 30000000 AM_SEEKING_AbsolutePositioning s
  = Ok (Toy.fields false (Some 1%nat) (Some 1%nat) (Some 0%nat))
  /\ SetStopPosition false trk 30000000 AM_SEEKING_IncrementalPositioning s
     = Ok (Toy.fields false (Some 1%nat) (Some 2%nat) (Some 0%nat)).
Proof. split; reflexivity. Qed.

(** Witness of C5: from 1 s, the Absolute target 30,000,000 ns is not after
    the cursor; the Incremental target 1 s + 5 s is not before the 5 s
    duration. *)
Lemma SetStopPosition_clamps_witness :
  let trk := Toy.track (5 * Toy.sec) 3 in
  let s := Toy.fields false (Some 1%nat) (Some 2%nat) (Some 0%nat) in
  SetStopPosition false trk 30000000 AM_SEEKING_AbsolutePositioning s
  = Ok (Toy.fields false (Some 1%nat) (Some 1%nat) (Some 0%nat))
  /\ SetStopPosition false trk 50000000 AM_SEEKING_IncrementalPositioning s
     = Ok (Toy.fields false (Some 1%nat) (Some 3%nat) (Some 0%nat)).
Proof.
  intros trk s. split.
  - apply (proj1 (SetStopPosition_clamps false trk 30000000
                    AM_SEEKING_AbsolutePositioning s Toy.sec 30000000
                    (toy_reaches_switch AM_SEEKING_AbsolutePositioning (Some 2%nat) ltac:(vm_compute; discriminate)) eq_refl)).
    discriminate.
  - apply (proj2 (SetStopPosition_clamps false trk 50000000
                    AM_SEEKING_IncrementalPositioning s Toy.sec (6 * Toy.sec)
                    (toy_reaches_switch AM_SEEKING_IncrementalPositioning (Some 2%nat) ltac:(vm_compute; discriminate)) eq_refl)).
    + reflexivity.
    + discriminate.
Defined.

(** Witness of C6: Incremental 0 with the cursor at 1 s. *)
Lemma SetStopPosition_incremental_nonpositive_witness :
  let trk := Toy.track (5 * Toy.sec) 3 in
  let s := Toy.fields false (Some 1%nat) (Some 3%nat) (Some 0%nat) in
  SetStopPosition false trk 0 AM_SEEKING_IncrementalPositioning s
  = Ok (Toy.fields false (Some 1%nat) (Some 1%nat) (Some 0%nat)).
Proof.
  intros trk s.
  apply (proj2 (SetStopPosition_incremental_nonpositive false trk 0
                  AM_SEEKING_IncrementalPositioning s
                  ltac:(discriminate) eq_refl eq_refl ltac:(reflexivity))
           Toy.sec).
  apply toy_reaches_switch. vm_compute. discriminate.
Defined.

(** Witness of C7: two block entries loaded, the cursor on the second; the
    next one is not there yet. *)
Lemma PopulateSample_underflow_frame_witness :
  let trk := Toy.track (5 * Toy.sec) 2 in
  let s := Toy.fields false (Some 1%nat) (Some 3%nat) (Some 0%nat) in
  exists sent s',
    PopulateSample false trk (Toy.hooks S_OK) (Some 7%nat) s
    = Ok (VFW_E_BUFFER_UNDERFLOW, sent, s')
    /\ sent = [] /\ s' = s.
Proof.
  intros trk s. exists [], s.
  assert (Hret : PopulateSample false trk (Toy.hooks S_OK) (Some 7%nat) s
                 = Ok (VFW_E_BUFFER_UNDERFLOW, [], s)) by reflexivity.
  split; [exact Hret|].
  destruct (PopulateSample_underflow_frame false trk (Toy.hooks S_OK)
              (Some 7%nat) s [] s Hret)
    as (Hsent & _ & _ & Hsame & _).
  split; [exact Hsent|]. apply Hsame. discriminate.
Defined.

(** C7 as stated fails on a fresh stream when one block entry is loaded:
    the first pull initialises [curr] and [base], then [GetNext] reports
    E_BUFFER_NOT_FULL; the call returns VFW_E_BUFFER_UNDERFLOW with [curr]
    and [base] no longer null. The retry, once a second entry is loaded,
    carries on from there. *)
Lemma PopulateSample_underflow_counterexample :
  let trk := Toy.track (5 * Toy.sec) 1 in
  let s := Stream_ctor trk in
  let s' := Toy.fields true (Some 0%nat) (Some 3%nat) (Some 0%nat) in
  PopulateSample false trk (Toy.hooks S_OK) (Some 7%nat) s
  = Ok (VFW_E_BUFFER_UNDERFLOW, [], s')
  /\ m_pCurr s = None /\ m_pCurr s' <> m_pCurr s
  /\ m_pBase s = None /\ m_pBase s' <> m_pBase s
  /\ PopulateSample false (Toy.track (5 * Toy.sec) 2) (Toy.hooks S_OK) (Some 7%nat) s'
     = Ok (S_OK,
           [ {| seen := s'; pNext := Some 1%nat; answer := S_OK |} ],
           Toy.fields false (Some 1%nat) (Some 3%nat) (Some 0%nat)).
Proof. repeat split; discriminate. Qed.


(** Witness of C10: a fresh stream, two pulls into a sink that answers
    S_FALSE to both; the second sample is still handed over with the flag
    up. *)
Lemma Init_raises_discontinuity_witness :
  let trk := Toy.track (5 * Toy.sec) 3 in
  let d1 := {| seen := Toy.fields true (Some 0%nat) (Some 3%nat) (Some 0%nat);
               pNext := Some 1%nat; answer := S_FALSE |} in
  let d2 := {| seen := Toy.fields true (Some 1%nat) (Some 3%nat) (Some 0%nat);
               pNext := Some 2%nat; answer := S_FALSE |} in
  run false (Toy.hooks S_FALSE)
    [ (trk, call_PopulateSample (Some 7%nat));
      (trk, call_PopulateSample (Some 8%nat)) ]
    (Init trk (Toy.fields false (Some 2%nat) None (Some 1%nat)))
  = Ok ([2; 2], [d1; d2], Toy.fields true (Some 2%nat) (Some 3%nat) (Some 0%nat))
  /\ m_bDiscontinuity (seen d2) = true.
Proof.
  intros trk d1 d2.
  assert (Hrun :
    run false (Toy.hooks S_FALSE)
      [ (trk, call_PopulateSample (Some 7%nat));
        (trk, call_PopulateSample (Some 8%nat)) ]
      (Init trk (Toy.fields false (Some 2%nat) None (Some 1%nat)))
    = Ok ([2; 2], [d1; d2],
          Toy.fields true (Some 2%nat) (Some 3%nat) (Some 0%nat)))
    by reflexivity.
  split; [exact Hrun|].
  apply (proj2 (proj2 (Init_raises_discontinuity false (Toy.hooks S_FALSE) trk
                         (Toy.fields false (Some 2%nat) None (Some 1%nat))))
           _ _ _ _ Hrun [d1] d2 [] eq_refl).
  repeat constructor. discriminate.
Defined.


(** * Further properties: the other members, and how the members compose *)

Section Composition.

Context {Cluster BlockEntry Block Cues CuePoint TrackPosition IMediaSample : Type}.
Context `{!EqDecision Cluster, !EqDecision BlockEntry}.

Variable NDEBUG : bool.
Variable trk : Track Cluster BlockEntry Block Cues CuePoint TrackPosition.
Variable hooks : Hooks Cluster BlockEntry IMediaSample.

Abbreviation fields := (Stream Cluster BlockEntry).

Ltac through_assert :=
  match goal with
  | |- result_bind (assert _ ?c) _ = Ok _ -> _ =>
      destruct (assert_returns NDEBUG c) as [-> | [-> | ->]];
      cbn [result_bind]; [|discriminate|discriminate]
  end.

(** ** Seek and GetSeekBase *)

Lemma Seek_at_GetSeekBase_at (p : option BlockEntry) (s : fields)
    (r : option Cluster) (s' : fields) :
  Seek_at NDEBUG trk p s = Ok (r, s') ->
  GetSeekBase_at NDEBUG trk p = Ok r.
Proof.
  unfold Seek_at, GetSeekBase_at. cbn [m_pCurr set_m_pCurr].
  do 2 through_assert.
  destruct p as [e|]; cbn; [|discriminate].
  now intros [= <- _].
Qed.

Lemma GetSeekBase_at_Seek_at (p : option BlockEntry) (s : fields)
    (r : option Cluster) :
  GetSeekBase_at NDEBUG trk p = Ok r ->
  Seek_at NDEBUG trk p s = Ok (r, set_m_pBase r (set_m_pCurr p s)).
Proof.
  unfold Seek_at, GetSeekBase_at. cbn [m_pCurr set_m_pCurr].
  do 2 through_assert.
  destruct p as [e|]; cbn; [|discriminate].
  now intros [= <-].
Qed.

(** X1. [Seek] and [GetSeekBase] resolve a time alike: the cluster a [Seek]
    returns, which is also the [base] it leaves, is the one [GetSeekBase]
    returns for the same arguments; and whenever [GetSeekBase] returns a
    cluster (and the duration is not negative where [Seek] asserts so),
    [Seek] returns it too. *)
Theorem Seek_agrees_with_GetSeekBase (t : Z) (use_cues : bool) (s : fields) :
  (NDEBUG = false -> 0 <= Segment_GetDuration trk) ->
  (forall r s', Seek NDEBUG trk t use_cues s = Ok (r, s') ->
                GetSeekBase NDEBUG trk t use_cues = Ok r /\ m_pBase s' = r) /\
  (forall r, GetSeekBase NDEBUG trk t use_cues = Ok r ->
             exists s', Seek NDEBUG trk t use_cues s = Ok (r, s') /\
                        m_pBase s' = r).
Proof.
  intros Hdur. unfold Seek, GetSeekBase.
  rewrite assert_holds by (intros H; apply Z.leb_le; auto).
  cbn [result_bind]. split.
  - intros r s'.
    destruct (Segment_GetCount trk =? 0).
    { destruct (Segment_Unparsed trk <=? 0); now intros [= <- <-]. }
    destruct (t <=? 0); [now intros [= <- <-]|].
    destruct (t >=? Segment_GetDuration trk); [now intros [= <- <-]|].
    intros H. split; [now apply Seek_at_GetSeekBase_at in H|].
    now apply Seek_at_fields in H.
  - intros r.
    destruct (Segment_GetCount trk =? 0).
    { destruct (Segment_Unparsed trk <=? 0); intros [= <-]; eauto. }
    destruct (t <=? 0); [intros [= <-]; eauto|].
    destruct (t >=? Segment_GetDuration trk); [intros [= <-]; eauto|].
    intros H. rewrite (GetSeekBase_at_Seek_at _ _ _ H). eauto.
Qed.

(** X2. What [Seek] leaves behind depends on the fields before the call
    through [stop] alone: from any two states with the same [stop] it returns
    the same cluster and the same fields. So a [Seek] repeated with the same
    arguments (the parser unchanged) changes nothing. *)
Theorem Seek_forgets_cursor (t : Z) (use_cues : bool) (s1 s2 : fields)
    (r : option Cluster) (s' : fields) :
  Seek NDEBUG trk t use_cues s1 = Ok (r, s') ->
  m_pStop s2 = m_pStop s1 ->
  Seek NDEBUG trk t use_cues s2 = Ok (r, s') /\
  Seek NDEBUG trk t use_cues s' = Ok (r, s').
Proof.
  intros H Hstop.
  assert (Hsame : forall a b : fields, m_pStop a = m_pStop b ->
            Seek NDEBUG trk t use_cues a = Seek NDEBUG trk t use_cues b).
  { intros [d1 c1 st1 b1] [d2 c2 st2 b2]. cbn. intros ->. reflexivity. }
  split.
  - now rewrite (Hsame s2 s1 Hstop).
  - rewrite (Hsame s' s1); [exact H|].
    now apply Seek_returns_discontinuity in H.
Qed.


(** ** SetStopPosition *)

(** X3. In Absolute and Incremental mode [SetStopPosition] does not read the
    previous [stop]: called from fields that differ in [stop] only it returns
    the same fields, so calling it again with the same arguments changes
    nothing. (Relative mode starts from the previous [stop].) *)
Theorem SetStopPosition_forgets_stop (off dw : Z) (s : fields)
    (q : option BlockEntry) (s' : fields) :
  Z.land dw AM_SEEKING_PositioningBitsMask = AM_SEEKING_AbsolutePositioning \/
  Z.land dw AM_SEEKING_PositioningBitsMask = AM_SEEKING_IncrementalPositioning ->
  SetStopPosition NDEBUG trk off dw s = Ok s' ->
  SetStopPosition NDEBUG trk off dw (set_m_pStop q s) = Ok s' /\
  SetStopPosition NDEBUG trk off dw s' = Ok s'.
Proof.
  intros Hmode H.
  assert (Hsame : forall q',
            SetStopPosition NDEBUG trk off dw (set_m_pStop q' s)
            = SetStopPosition NDEBUG trk off dw s).
  { intros q'. destruct s as [d c st b].
    unfold SetStopPosition, SetStopPosition_switch.
    destruct Hmode as [-> | ->]; reflexivity. }
  split; [now rewrite Hsame|].
  destruct (SetStopPosition_frame _ _ _ _ _ _ H) as (p & ->).
  now rewrite Hsame.
Qed.

(** X4. [SetStopPosition] writes [stop] and nothing else; and with no
    cluster loaded, or with the cursor on an end-of-stream entry, it sets
    [stop] to the track's end-of-stream entry ("play to end") whatever the
    mode and the value are. *)
Theorem SetStopPosition_writes_stop_only (off dw : Z) (s : fields) :
  (forall s', SetStopPosition NDEBUG trk off dw s = Ok s' ->
              m_pCurr s' = m_pCurr s /\ m_pBase s' = m_pBase s /\
              m_bDiscontinuity s' = m_bDiscontinuity s) /\
  (Segment_GetCount trk = 0 \/ at_EOS trk (m_pCurr s) = true ->
   (NDEBUG = false ->
    Z.land dw AM_SEEKING_PositioningBitsMask <> AM_SEEKING_NoPositioning) ->
   SetStopPosition NDEBUG trk off dw s
   = Ok (set_m_pStop (Some (Track_GetEOS trk)) s)).
Proof.
  split.
  - intros s' H. destruct (SetStopPosition_frame _ _ _ _ _ _ H) as (p & ->).
    auto.
  - intros Hexit Hmode. unfold SetStopPosition.
    rewrite assert_holds.
    2:{ intros Hd. apply negb_true_iff, Z.eqb_neq. exact (Hmode Hd). }
    cbn [result_bind].
    destruct (Z.eqb_spec (Segment_GetCount trk) 0) as [|Hcount]; [reflexivity|].
    destruct Hexit as [Hc | ->]; [contradiction|reflexivity].
Qed.


(** ** PopulateSample *)

(** X5. What [PopulateSample] never writes: [stop] on no path; [base] only
    when it starts from a null [curr]; the flag is never raised. And a call
    that hands nothing to the sink leaves a set cursor, and with it all
    fields, as they were. *)
Theorem PopulateSample_frame (pSample : option IMediaSample) (s : fields)
    (hr : Z) (sent : list (Delivery Cluster BlockEntry)) (s' : fields) :
  PopulateSample NDEBUG trk hooks pSample s = Ok (hr, sent, s') ->
  m_pStop s' = m_pStop s /\
  (m_pCurr s <> None -> m_pBase s' = m_pBase s) /\
  (m_bDiscontinuity s = false -> m_bDiscontinuity s' = false) /\
  (sent = [] -> m_pCurr s <> None -> s' = s).
Proof.
  intros H. apply PopulateSample_cases in H.
  assert (Hnext : forall smp s0,
    PopulateSample_next NDEBUG trk hooks smp s0 = Ok (hr, sent, s') ->
    m_pStop s' = m_pStop s0 /\ m_pBase s' = m_pBase s0 /\
    (m_bDiscontinuity s0 = false -> m_bDiscontinuity s' = false) /\
    (sent = [] -> s' = s0)).
  { intros smp s0 H0. apply PopulateSample_next_cases in H0.
    destruct H0 as [(_ & _ & ->) | [(_ & _ & -> & _) | (d & -> & _ & _ & _ & _ & H0)]];
      [auto | auto |].
    destruct H0 as [(_ & _ & ->) | (_ & _ & ->)]; cbn; repeat split; auto;
      discriminate. }
  destruct H as [(_ & _ & _ & ->) | [(smp & _ & _ & _ & _ & ->) | [H | [H | H]]]];
    [auto | auto | | |].
  - destruct H as (smp & _ & _ & Hcurr & _ & _ & _ & ->). cbn.
    repeat split; auto; congruence.
  - destruct H as (smp & _ & _ & Hcurr & _ & H).
    destruct (Hnext _ _ H) as (Hstop & _ & Hflag & _). cbn in Hstop, Hflag.
    repeat split; auto; congruence.
  - destruct H as (smp & _ & _ & _ & H).
    destruct (Hnext _ _ H) as (Hstop & Hbase & Hflag & Hsame).
    repeat split; auto.
Qed.

(** X6. The statuses of [PopulateSample]: it returns S_OK, S_FALSE, 2,
    VFW_E_BUFFER_UNDERFLOW or E_INVALIDARG; E_INVALIDARG exactly for a null
    sample pointer, and then nothing is touched; it calls the sink at most
    once, always when it returns 2 and never when it returns S_FALSE,
    VFW_E_BUFFER_UNDERFLOW or E_INVALIDARG. *)
Theorem PopulateSample_statuses (pSample : option IMediaSample) (s : fields)
    (hr : Z) (sent : list (Delivery Cluster BlockEntry)) (s' : fields) :
  PopulateSample NDEBUG trk hooks pSample s = Ok (hr, sent, s') ->
  (hr = S_OK \/ hr = S_FALSE \/ hr = 2 \/ hr = VFW_E_BUFFER_UNDERFLOW \/
   hr = E_INVALIDARG) /\
  (hr = E_INVALIDARG <-> pSample = None) /\
  (pSample = None -> sent = [] /\ s' = s) /\
  (length sent <= 1)%nat /\
  (hr = 2 -> sent <> []) /\
  (sent <> [] -> hr = S_OK \/ hr = 2).
Proof.
  intros H. pose proof (PopulateSample_deliveries _ _ _ _ _ _ _ _ H) as (_ & Hd).
  apply PopulateSample_cases in H.
  assert (Hnone : pSample = None -> hr = E_INVALIDARG /\ sent = [] /\ s' = s).
  { intros ->.
    destruct H as [(_ & -> & -> & ->) | [(smp & Hs & _) | [(smp & Hs & _) |
                  [(smp & Hs & _) | (smp & Hs & _)]]]]; auto; discriminate. }
  assert (Hhr : hr = S_OK \/ hr = S_FALSE \/ hr = 2 \/
                hr = VFW_E_BUFFER_UNDERFLOW \/ hr = E_INVALIDARG).
  { assert (Hnext : forall smp s0,
      PopulateSample_next NDEBUG trk hooks smp s0 = Ok (hr, sent, s') ->
      hr = S_OK \/ hr = S_FALSE \/ hr = 2 \/
      hr = VFW_E_BUFFER_UNDERFLOW \/ hr = E_INVALIDARG).
    { intros smp s0 H0. apply PopulateSample_next_cases in H0.
      destruct H0 as [(-> & _) | [(-> & _) | (d & _ & _ & _ & _ & _ & H0)]];
        [auto | auto |].
      destruct H0 as [(_ & -> & _) | (_ & -> & _)]; auto. }
    destruct H as [(_ & -> & _) | [(smp & _ & _ & -> & _) | [H | [H | H]]]];
      [auto | auto | | |].
    - destruct H as (smp & _ & _ & _ & _ & -> & _). auto.
    - destruct H as (smp & _ & _ & _ & _ & H). exact (Hnext _ _ H).
    - destruct H as (smp & _ & _ & _ & H). exact (Hnext _ _ H). }
  split; [exact Hhr|].
  assert (Hsome : hr = E_INVALIDARG -> pSample = None).
  { intros ->.
    destruct H as [(Hs & _) | [(smp & _ & _ & Hx & _) | [H | [H | H]]]];
      [exact Hs | discriminate Hx | | |].
    - destruct H as (smp & _ & _ & _ & _ & Hx & _). discriminate Hx.
    - destruct Hd as [(_ & _ & _) | (d & smp & _ & -> & _)].
      + destruct H as (smp & -> & _ & _ & _ & H).
        apply PopulateSample_next_cases in H.
        destruct H as [(Hx & _) | [(Hx & _) | (d & _ & _ & _ & _ & _ & H)]];
          try discriminate Hx.
        destruct H as [(_ & Hx & _) | (_ & Hx & _)]; discriminate Hx.
      + destruct H as (smp' & _ & _ & _ & _ & H).
        apply PopulateSample_next_cases in H.
        destruct H as [(Hx & _) | [(Hx & _) | (d' & _ & _ & _ & _ & _ & H)]];
          try discriminate Hx.
        destruct H as [(_ & Hx & _) | (_ & Hx & _)]; discriminate Hx.
    - destruct H as (smp & _ & _ & _ & H).
      apply PopulateSample_next_cases in H.
      destruct H as [(Hx & _) | [(Hx & _) | (d & _ & _ & _ & _ & _ & H)]];
        try discriminate Hx.
      destruct H as [(_ & Hx & _) | (_ & Hx & _)]; discriminate Hx. }
  split; [split; [exact Hsome | intros Hn; exact (proj1 (Hnone Hn))]|].
  split; [intros Hn; exact (proj2 (Hnone Hn))|].
  destruct Hd as [(-> & _ & Hnot2) | (d & smp & -> & _ & _ & _ & _ & _ & _ & _ & Hres)].
  - split; [cbn; lia|]. split; [intros; contradiction|]. intros Hx. now elim Hx.
  - split; [cbn; lia|]. split; [discriminate|]. intros _.
    destruct Hres as [(_ & -> & _) | (_ & -> & _)]; auto.
Qed.

(** X7. When a pull reports end of stream. With the cursor on the entry [e]
    and the preroll hook declining, [PopulateSample] returns S_FALSE, with
    nothing handed over and nothing changed, when [stop] is [e], or when
    [stop] is null and [e] is an end-of-stream entry; in every other case no
    call that returns returns S_FALSE: so a cursor on an end-of-stream entry
    with a different, non-null [stop] is not reported as the end. *)
Theorem PopulateSample_end_of_stream (smp : IMediaSample) (s : fields)
    (e : BlockEntry) :
  m_pCurr s = Some e ->
  SendPreroll hooks smp = false ->
  (match m_pStop s with
   | None => BlockEntry_EOS trk e = true
   | Some p => p = e
   end ->
   PopulateSample NDEBUG trk hooks (Some smp) s = Ok (S_FALSE, [], s)) /\
  (match m_pStop s with
   | None => BlockEntry_EOS trk e = false
   | Some p => p <> e
   end ->
   forall hr sent s',
     PopulateSample NDEBUG trk hooks (Some smp) s = Ok (hr, sent, s') ->
     hr <> S_FALSE).
Proof.
  intros Hcurr Hpre. unfold PopulateSample. rewrite Hpre, Hcurr.
  unfold PopulateSample_next. rewrite Hcurr. split.
  - destruct (m_pStop s) as [p|]; cbn.
    + intros ->. rewrite bool_decide_true by reflexivity. reflexivity.
    + intros ->. reflexivity.
  - intros Hnot hr sent s'.
    assert (Heos : (if negb (nonnull (m_pStop s))
                    then do c <- deref (Some e); Ok (BlockEntry_EOS trk c)
                    else Ok (bool_decide (Some e = m_pStop s))) = Ok false).
    { destruct (m_pStop s) as [p|]; cbn.
      - rewrite bool_decide_false; [reflexivity|congruence].
      - now rewrite Hnot. }
    rewrite Heos. cbn [result_bind].
    destruct (Track_GetNext trk (Some e)) as [status nb].
    destruct (status =? E_BUFFER_NOT_FULL trk); [intros [= <- _ _]; discriminate|].
    do 3 through_assert.
    destruct (negb (OnPopulateSample hooks s nb smp =? S_OK));
      intros [= <- _ _]; discriminate.
Qed.


(** ** Reading positions back *)

Lemma GetDuration_returns :
  (NDEBUG = false -> 0 <= Segment_GetDuration trk) ->
  GetDuration NDEBUG trk = Ok (Z.quot (Segment_GetDuration trk) 100).
Proof.
  intros Hdur. unfold GetDuration.
  rewrite assert_holds by (intros H; apply Z.geb_le; auto). reflexivity.
Qed.

Lemma GetStopTime_at_curr (s : fields) :
  m_pStop s = m_pCurr s ->
  m_pCurr s <> None ->
  GetStopTime NDEBUG trk s = GetCurrTime NDEBUG trk s.
Proof.
  intros Hstop Hcurr. unfold GetStopTime, GetCurrTime. rewrite Hstop.
  now destruct (m_pCurr s).
Qed.

Lemma SetStopPosition_incremental_returns (off dw : Z) (s s' : fields) :
  Segment_GetCount trk <> 0 ->
  at_EOS trk (m_pCurr s) = false ->
  Z.land dw AM_SEEKING_PositioningBitsMask = AM_SEEKING_IncrementalPositioning ->
  off <= 0 ->
  SetStopPosition NDEBUG trk off dw s = Ok s' ->
  s' = set_m_pStop (m_pCurr s) s.
Proof.
  intros Hcount Heos Hmode Hoff. unfold SetStopPosition. through_assert.
  destruct (Z.eqb_spec (Segment_GetCount trk) 0) as [|_]; [contradiction|].
  rewrite Heos.
  destruct (SetStopPosition_tCurr NDEBUG trk s) as [tCurr| |];
    cbn [result_bind]; try discriminate.
  do 4 through_assert.
  rewrite Hmode. unfold SetStopPosition_switch.
  change (AM_SEEKING_IncrementalPositioning =? AM_SEEKING_AbsolutePositioning) with false.
  change (AM_SEEKING_IncrementalPositioning =? AM_SEEKING_RelativePositioning) with false.
  change (AM_SEEKING_IncrementalPositioning =? AM_SEEKING_IncrementalPositioning) with true.
  cbv iota. rewrite (proj2 (Z.leb_le off 0) Hoff). cbn [result_bind].
  now intros [= <-].
Qed.

(** X8. "Play to end" reads back as the duration. When the track's
    end-of-stream entry answers [EOS()] with true: a fresh or re-initialised
    stream reports current time 0 and stop time [GetDuration]; so does the
    stop time after [SetStopPositionEOS], and after a [SetStopPosition] made
    with no cluster loaded or with the cursor at end of stream. *)
Theorem play_to_end_reads_duration (off dw : Z) (s : fields) :
  BlockEntry_EOS trk (Track_GetEOS trk) = true ->
  GetCurrTime NDEBUG trk (Init trk s) = Ok 0 /\
  GetStopTime NDEBUG trk (Init trk s) = GetDuration NDEBUG trk /\
  GetStopTime NDEBUG trk (SetStopPositionEOS trk s) = GetDuration NDEBUG trk /\
  (Segment_GetCount trk = 0 \/ at_EOS trk (m_pCurr s) = true ->
   forall s', SetStopPosition NDEBUG trk off dw s = Ok s' ->
              GetStopTime NDEBUG trk s' = GetDuration NDEBUG trk).
Proof.
  intros Heos. unfold GetStopTime. cbn. rewrite Heos.
  repeat split; try reflexivity.
  intros Hexit s'. unfold SetStopPosition. through_assert.
  destruct (Z.eqb_spec (Segment_GetCount trk) 0) as [|Hcount].
  { intros [= <-]. cbn. now rewrite Heos. }
  destruct Hexit as [Hc | ->]; [contradiction|].
  intros [= <-]. cbn. now rewrite Heos.
Qed.

(** X9. The window an Incremental stop of 0 or less leaves. With clusters
    loaded and the cursor not at end of stream, after such a call: if the
    cursor is set, the stop time reads exactly as the current time (an empty
    window); if the cursor is still null, [stop] is null too, the current
    time reads 0 and the stop time reads [GetDuration] (the whole stream). *)
Theorem SetStopPosition_incremental_window (off dw : Z) (s s' : fields) :
  Segment_GetCount trk <> 0 ->
  at_EOS trk (m_pCurr s) = false ->
  Z.land dw AM_SEEKING_PositioningBitsMask = AM_SEEKING_IncrementalPositioning ->
  off <= 0 ->
  SetStopPosition NDEBUG trk off dw s = Ok s' ->
  (m_pCurr s <> None ->
   GetStopTime NDEBUG trk s' = GetCurrTime NDEBUG trk s') /\
  (m_pCurr s = None ->
   GetCurrTime NDEBUG trk s' = Ok 0 /\
   GetStopTime NDEBUG trk s' = GetDuration NDEBUG trk).
Proof.
  intros Hcount Heos Hmode Hoff H.
  rewrite (SetStopPosition_incremental_returns _ _ _ _ Hcount Heos Hmode Hoff H).
  split.
  - intros Hcurr. now apply GetStopTime_at_curr.
  - intros Hcurr. unfold GetCurrTime, GetStopTime. cbn. now rewrite Hcurr.
Qed.

(** X10. Reporting the current time and seeking back to it loses less than
    one tick. With the cursor on a block entry whose time [t] is a 64-bit
    value, [GetCurrTime] returns [t / 100] and [GetSeekTime] of that, in
    Absolute mode, returns a time within 100 ns of [t], and never after [t]
    when [t >= 0]. *)
Theorem GetCurrTime_GetSeekTime_round_trip (dw : Z) (s s2 : fields)
    (e : BlockEntry) (b : Block) :
  m_pCurr s = Some e ->
  BlockEntry_EOS trk e = false ->
  BlockEntry_GetBlock trk e = Some b ->
  - 2 ^ 63 <= Block_GetTime trk b (BlockEntry_GetCluster trk e) < 2 ^ 63 ->
  Z.land dw AM_SEEKING_PositioningBitsMask = AM_SEEKING_AbsolutePositioning ->
  (NDEBUG = false -> 0 <= Segment_GetDuration trk) ->
  exists r t',
    GetCurrTime NDEBUG trk s = Ok r /\
    GetSeekTime NDEBUG trk r dw s2 = Ok t' /\
    Z.abs (Block_GetTime trk b (BlockEntry_GetCluster trk e) - t') < 100 /\
    (0 <= Block_GetTime trk b (BlockEntry_GetCluster trk e) ->
     t' <= Block_GetTime trk b (BlockEntry_GetCluster trk e)).
Proof.
  intros Hcurr Heos Hb Hrange Hmode Hdur.
  set (t := Block_GetTime trk b (BlockEntry_GetCluster trk e)) in *.
  exists (Z.quot t 100), (Z.quot t 100 * 100).
  assert (Hqr : t = 100 * Z.quot t 100 + Z.rem t 100) by apply Z.quot_rem'.
  assert (Hrem : Z.abs (Z.rem t 100) < 100).
  { pose proof (Z.rem_bound_abs t 100). lia. }
  assert (Hsign : 0 <= t -> 0 <= Z.rem t 100).
  { intros Ht. apply Z.rem_nonneg; lia. }
  assert (Hsign' : t <= 0 -> Z.rem t 100 <= 0).
  { intros Ht. apply Z.rem_nonpos; lia. }
  split.
  { unfold GetCurrTime. rewrite Hcurr, Heos. unfold entry_time.
    cbn [deref result_bind]. rewrite Hb.
    rewrite assert_holds by reflexivity. reflexivity. }
  split.
  { unfold GetSeekTime. rewrite Hmode.
    rewrite assert_holds by reflexivity. cbn [result_bind].
    rewrite assert_holds by (intros H; apply Z.geb_le; auto).
    cbn [result_bind].
    change (AM_SEEKING_AbsolutePositioning =? AM_SEEKING_AbsolutePositioning) with true.
    cbv iota. rewrite wrap64_in_range; [reflexivity|]. lia. }
  split; lia.
Qed.

(** X11. The current time is the current position in nanoseconds, in ticks.
    Whenever [GetSeekTime] of 0 in Relative mode returns [ns] (the cursor's
    time: 0 for a null cursor, the duration at end of stream, else the
    block's time), [GetCurrTime] returns [ns / 100]; durations and block
    times being 64-bit values. *)
Theorem GetCurrTime_is_relative_zero (dw : Z) (s : fields) (ns : Z) :
  Z.land dw AM_SEEKING_PositioningBitsMask = AM_SEEKING_RelativePositioning ->
  - 2 ^ 63 <= Segment_GetDuration trk < 2 ^ 63 ->
  (forall b c, - 2 ^ 63 <= Block_GetTime trk b c < 2 ^ 63) ->
  GetSeekTime NDEBUG trk 0 dw s = Ok ns ->
  GetCurrTime NDEBUG trk s = Ok (Z.quot ns 100).
Proof.
  intros Hmode Hdur Htime. unfold GetSeekTime, GetCurrTime, GetDuration.
  rewrite Hmode. through_assert.
  destruct (assert_returns NDEBUG (Ok (Segment_GetDuration trk >=? 0)))
    as [Ha | [Ha | Ha]]; rewrite Ha; cbn [result_bind]; try discriminate.
  change (AM_SEEKING_RelativePositioning =? AM_SEEKING_AbsolutePositioning) with false.
  change (AM_SEEKING_RelativePositioning =? AM_SEEKING_RelativePositioning) with true.
  cbv iota. change (wrap64 (0 * 100)) with 0.
  destruct (m_pCurr s) as [e|]; [|now intros [= <-]].
  destruct (BlockEntry_EOS trk e).
  - intros [= <-]. rewrite Z.add_0_r, wrap64_in_range by exact Hdur. reflexivity.
  - unfold entry_time. cbn [deref result_bind].
    destruct (assert NDEBUG (Ok (nonnull (BlockEntry_GetBlock trk e))));
      cbn [result_bind]; try discriminate.
    destruct (BlockEntry_GetBlock trk e) as [b|]; cbn [deref result_bind];
      [|discriminate].
    intros [= <-]. rewrite Z.add_0_r, wrap64_in_range by apply Htime.
    reflexivity.
Qed.

(** X12. [GetAvailable]: a null pointer gets E_POINTER and nothing stored;
    otherwise, with a non-negative duration and the last loaded cluster
    starting within [0, duration], it returns S_OK and stores a position
    between 0 and [duration / 100], which is [duration / 100] itself once
    nothing is left to parse. *)
Theorem GetAvailable_bounds (pLast : option Cluster) (old : Z) :
  0 <= Segment_GetDuration trk ->
  (forall c, pLast = Some c -> Cluster_EOS trk c = false ->
             0 <= Cluster_GetTime trk c <= Segment_GetDuration trk) ->
  GetAvailable NDEBUG trk pLast None = Ok (E_POINTER, None) /\
  exists pos,
    GetAvailable NDEBUG trk pLast (Some old) = Ok (S_OK, Some pos) /\
    0 <= pos <= Z.quot (Segment_GetDuration trk) 100 /\
    (Segment_Unparsed trk <= 0 -> pos = Z.quot (Segment_GetDuration trk) 100).
Proof.
  intros Hdur Hlast. split; [reflexivity|].
  assert (Hq : 0 <= Z.quot (Segment_GetDuration trk) 100)
    by (apply Z.quot_pos; lia).
  unfold GetAvailable. rewrite GetDuration_returns by auto.
  destruct (Z.leb_spec (Segment_Unparsed trk) 0) as [Hdone|Hmore];
    cbn [result_bind].
  { eexists. split; [reflexivity|]. split; [lia|auto]. }
  destruct pLast as [c|].
  2:{ exists 0. cbn. split; [reflexivity|]. split; lia. }
  destruct (Cluster_EOS trk c) eqn:Heos.
  { exists 0. cbn. split; [reflexivity|]. split; lia. }
  destruct (Hlast c eq_refl Heos) as [H0 H1].
  eexists. cbn. split; [reflexivity|]. split; [|lia].
  split; [apply Z.quot_pos; lia|].
  apply Z.quot_le_mono; lia.
Qed.


(** ** Seek and SetCurrPosition *)

Lemma Seek_returns_base (t : Z) (use_cues : bool) (s : fields)
    (r : option Cluster) (s' : fields) :
  Seek NDEBUG trk t use_cues s = Ok (r, s') ->
  m_pBase s' = r.
Proof.
  unfold Seek. through_assert.
  destruct (Segment_GetCount trk =? 0).
  { destruct (Segment_Unparsed trk <=? 0); now intros [= <- <-]. }
  destruct (t <=? 0); [now intros [= <- <-]|].
  destruct (t >=? Segment_GetDuration trk); [now intros [= <- <-]|].
  intros H. now apply Seek_at_fields in H.
Qed.

(** X13. [Seek], against resolving the base and handing it to
    [SetCurrPosition]. A [Seek] that returns the cluster [r] leaves the same
    [base], [stop] and flag as [SetCurrPosition r]. On the boundary returns
    (no cluster loaded, target [<= 0], target [>= duration]) it leaves the
    same cursor as well, and so the same fields, the end-of-stream cluster's
    entry for the track being the track's end-of-stream entry. *)
Theorem Seek_against_SetCurrPosition (t : Z) (use_cues : bool) (s : fields)
    (r : option Cluster) (s' : fields) :
  Seek NDEBUG trk t use_cues s = Ok (r, s') ->
  m_pBase s' = m_pBase (SetCurrPosition trk r s) /\
  m_pStop s' = m_pStop (SetCurrPosition trk r s) /\
  m_bDiscontinuity s' = m_bDiscontinuity (SetCurrPosition trk r s) /\
  (Segment_GetCount trk = 0 \/ t <= 0 \/ Segment_GetDuration trk <= t ->
   Cluster_GetEntry trk (Segment_m_eos trk) = Some (Track_GetEOS trk) ->
   s' = SetCurrPosition trk r s).
Proof.
  intros H.
  destruct (Seek_returns_discontinuity _ _ _ _ _ _ _ H) as [Hflag Hstop].
  pose proof (Seek_returns_base _ _ _ _ _ H) as Hbase.
  split; [now destruct r|]. split; [now destruct r|]. split; [now destruct r|].
  intros Hb Heos. revert H. unfold Seek. through_assert.
  destruct (Z.eqb_spec (Segment_GetCount trk) 0) as [Hc0|Hc0].
  { destruct (Segment_Unparsed trk <=? 0); intros [= <- <-];
      unfold SetCurrPosition; cbn; now rewrite ?Heos. }
  destruct (Z.leb_spec t 0) as [Ht|Ht]; [now intros [= <- <-]|].
  destruct (Z.geb_spec t (Segment_GetDuration trk)) as [Hd|Hd].
  { intros [= <- <-]. unfold SetCurrPosition. cbn. now rewrite Heos. }
  lia.
Qed.

End Composition.

Section SessionProperties.

Context {Cluster BlockEntry Block Cues CuePoint TrackPosition IMediaSample : Type}.
Context `{!EqDecision Cluster, !EqDecision BlockEntry}.

Variable NDEBUG : bool.
Variable hooks : Hooks Cluster BlockEntry IMediaSample.

Abbreviation parser := (Track Cluster BlockEntry Block Cues CuePoint TrackPosition).
Abbreviation fields := (Stream Cluster BlockEntry).

(** X14. Seeking and pulling never move the stop position: in a session
    without [Init], [SetStopPosition] and [SetStopPositionEOS], however the
    container is loaded in between, [stop] at the end is [stop] at the
    start, and every sample is handed to the sink with that [stop] in the
    fields. *)
Theorem run_without_stop_calls_keeps_stop
    (cs : list (parser * call Cluster IMediaSample)) :
  forall (s : fields) hrs sent s',
    Forall (fun tc => match snd tc with
                      | call_Init | call_SetStopPosition _ _
                      | call_SetStopPositionEOS => False
                      | _ => True
                      end) cs ->
    run NDEBUG hooks cs s = Ok (hrs, sent, s') ->
    m_pStop s' = m_pStop s /\
    Forall (fun d => m_pStop (seen d) = m_pStop s) sent.
Proof.
  induction cs as [|[trk c] cs IH]; intros s hrs sent s' Hcs H.
  - injection H as <- <- <-. auto.
  - inversion Hcs as [|? ? Hc Hcs']; subst. cbn [run] in H. cbn [snd] in Hc.
    destruct (step NDEBUG trk hooks c s) as [[[hrs1 sent1] s1]| |] eqn:Hstep;
      cbn in H; try discriminate.
    destruct (run NDEBUG hooks cs s1) as [[[hrs2 sent2] s2]| |] eqn:Hrun;
      cbn in H; try discriminate.
    injection H as <- <- <-.
    assert (Hone : m_pStop s1 = m_pStop s /\
                   Forall (fun d => m_pStop (seen d) = m_pStop s) sent1).
    { destruct c as [|t use_cues|pBase|off dw| |pSample]; cbn [step] in Hstep;
        try contradiction.
      - destruct (Seek NDEBUG trk t use_cues s) as [[r s0]| |] eqn:Hseek;
          cbn in Hstep; try discriminate.
        injection Hstep as <- <- <-. split; [|constructor].
        now apply Seek_returns_discontinuity in Hseek.
      - injection Hstep as <- <- <-. split; [|constructor].
        unfold SetCurrPosition. now destruct pBase.
      - destruct (PopulateSample NDEBUG trk hooks pSample s)
          as [[[hr sent0] s0]| |] eqn:Hpop; cbn in Hstep; try discriminate.
        injection Hstep as <- <- <-.
        apply PopulateSample_deliveries in Hpop.
        destruct Hpop as (Hstop & [(-> & _) | (d & smp & -> & _ & _ & Hseen & _)]);
          (split; [exact Hstop|]); repeat constructor. exact Hseen. }
    destruct Hone as [Hstop1 Hsent1].
    destruct (IH _ _ _ _ Hcs' Hrun) as [Hstop2 Hsent2].
    split; [congruence|].
    apply Forall_app. split; [exact Hsent1|].
    rewrite <- Hstop1. exact Hsent2.
Qed.

(** One call that is a pull or sets the stop position, seen from the
    cursor. *)
Lemma step_moves_cursor_by_delivery (trk : parser) (c : call Cluster IMediaSample)
    (s : fields) (hrs : list Z) (sent : list (Delivery Cluster BlockEntry))
    (s' : fields) :
  match c with
  | call_PopulateSample _ | call_SetStopPosition _ _
  | call_SetStopPositionEOS => True
  | _ => False
  end ->
  step NDEBUG trk hooks c s = Ok (hrs, sent, s') ->
  (sent = [] /\ (m_pCurr s <> None -> m_pCurr s' = m_pCurr s)) \/
  (exists d, sent = [d] /\
             (m_pCurr s <> None -> m_pCurr (seen d) = m_pCurr s) /\
             m_pCurr s' = pNext d).
Proof.
  intros Hc H. destruct c as [|t use_cues|pBase|off dw| |pSample];
    cbn [step] in H; try contradiction.
  - destruct (SetStopPosition NDEBUG trk off dw s) as [s1| |] eqn:Hstop;
      cbn in H; try discriminate.
    injection H as <- <- <-. left. split; [reflexivity|]. intros _.
    apply SetStopPosition_frame in Hstop. now destruct Hstop as (p & ->).
  - injection H as <- <- <-. left. auto.
  - destruct (PopulateSample NDEBUG trk hooks pSample s)
      as [[[hr sent0] s0]| |] eqn:Hpop; cbn in H; try discriminate.
    injection H as <- <- <-.
    apply PopulateSample_cases in Hpop.
    assert (Hnext : forall smp s1,
      (m_pCurr s <> None -> s1 = s) ->
      PopulateSample_next NDEBUG trk hooks smp s1 = Ok (hr, sent0, s0) ->
      (sent0 = [] /\ (m_pCurr s <> None -> m_pCurr s0 = m_pCurr s)) \/
      (exists d, sent0 = [d] /\
                 (m_pCurr s <> None -> m_pCurr (seen d) = m_pCurr s) /\
                 m_pCurr s0 = pNext d)).
    { intros smp s1 Hs1 H1. apply PopulateSample_next_cases in H1.
      destruct H1 as [(_ & -> & ->) | [(_ & -> & -> & _) | (d & -> & Hseen & _ & _ & _ & H1)]].
      - left. split; [reflexivity|]. intros Hcurr. now rewrite (Hs1 Hcurr).
      - left. split; [reflexivity|]. intros Hcurr. now rewrite (Hs1 Hcurr).
      - right. exists d. split; [reflexivity|]. split.
        + intros Hcurr. now rewrite Hseen, (Hs1 Hcurr).
        + destruct H1 as [(_ & _ & ->) | (_ & _ & ->)]; reflexivity. }
    destruct Hpop as [(_ & _ & -> & ->) | [(smp & _ & _ & _ & -> & ->) | [Hp | [Hp | Hp]]]].
    + left. auto.
    + left. auto.
    + destruct Hp as (smp & _ & _ & Hcurr & _ & _ & -> & ->).
      left. split; [reflexivity|]. intros Hx. contradiction.
    + destruct Hp as (smp & _ & _ & Hcurr & _ & Hp).
      refine (Hnext smp _ _ Hp). intros Hx. contradiction.
    + destruct Hp as (smp & _ & _ & _ & Hp). apply (Hnext smp s); auto.
Qed.

Lemma run_delivers_in_sequence (cs : list (parser * call Cluster IMediaSample)) :
  forall (s : fields) hrs sent s',
    Forall (fun tc => match snd tc with
                      | call_PopulateSample _ | call_SetStopPosition _ _
                      | call_SetStopPositionEOS => True
                      | _ => False
                      end) cs ->
    run NDEBUG hooks cs s = Ok (hrs, sent, s') ->
    (forall d rest, sent = d :: rest -> m_pCurr s <> None ->
                    m_pCurr (seen d) = m_pCurr s) /\
    (forall pre d1 d2 post, sent = pre ++ d1 :: d2 :: post ->
                            pNext d1 <> None ->
                            m_pCurr (seen d2) = pNext d1) /\
    (sent = [] -> m_pCurr s <> None -> m_pCurr s' = m_pCurr s) /\
    (forall pre d, sent = pre ++ [d] -> pNext d <> None ->
                   m_pCurr s' = pNext d).
Proof.
  induction cs as [|[trk c] cs IH]; intros s hrs sent s' Hcs H.
  - injection H as <- <- <-. repeat split; try discriminate; auto.
    + intros [|? ?] ? ? ? Hx; discriminate Hx.
    + intros [|? ?] ? Hx; discriminate Hx.
  - inversion Hcs as [|? ? Hc Hcs']; subst. cbn [run] in H. cbn [snd] in Hc.
    destruct (step NDEBUG trk hooks c s) as [[[hrs1 sent1] s1]| |] eqn:Hstep;
      cbn in H; try discriminate.
    destruct (run NDEBUG hooks cs s1) as [[[hrs2 sent2] s2]| |] eqn:Hrun;
      cbn in H; try discriminate.
    injection H as <- <- <-.
    destruct (IH _ _ _ _ Hcs' Hrun) as (IHa & IHb & IHc & IHd).
    destruct (step_moves_cursor_by_delivery _ _ _ _ _ _ Hc Hstep)
      as [(-> & Hkeep) | (d0 & -> & Hseen & Hcurr)]; cbn [app].
    + repeat split.
      * intros d rest Hs Hset. rewrite (IHa d rest Hs); rewrite (Hkeep Hset); auto.
      * exact IHb.
      * intros Hs Hset. rewrite (IHc Hs); rewrite (Hkeep Hset); auto.
      * exact IHd.
    + repeat split.
      * intros d rest [= <- _] Hset. exact (Hseen Hset).
      * intros [|x pre] d1 d2 post Hs Hnext; cbn in Hs.
        -- injection Hs as <- Hs. rewrite (IHa d2 post Hs); rewrite Hcurr; auto.
        -- injection Hs as _ Hs. exact (IHb pre d1 d2 post Hs Hnext).
      * discriminate.
      * intros [|x pre] d Hs Hnext; cbn in Hs.
        -- injection Hs as <- Hs. rewrite (IHc Hs); rewrite Hcurr; auto.
        -- injection Hs as _ Hs. exact (IHd pre d Hs Hnext).
Qed.

(** X15. Samples are handed over in sequence. In a session of pulls and
    stop-position calls (no [Init], [Seek] or [SetCurrPosition]), however
    the container is loaded in between: each sample is handed to the sink
    with the cursor on the entry the previous sample was fetched as next
    (that entry not being null), the first one with the cursor where the
    session found it when it was set, and at the end the cursor rests on the
    entry the last sample was fetched as next. *)
Theorem pulls_deliver_in_sequence
    (cs : list (parser * call Cluster IMediaSample))
    (s : fields) (hrs : list Z) (sent : list (Delivery Cluster BlockEntry))
    (s' : fields) :
  Forall (fun tc => match snd tc with
                    | call_PopulateSample _ | call_SetStopPosition _ _
                    | call_SetStopPositionEOS => True
                    | _ => False
                    end) cs ->
  run NDEBUG hooks cs s = Ok (hrs, sent, s') ->
  (forall d rest, sent = d :: rest -> m_pCurr s <> None ->
                  m_pCurr (seen d) = m_pCurr s) /\
  (forall pre d1 d2 post, sent = pre ++ d1 :: d2 :: post ->
                          pNext d1 <> None ->
                          m_pCurr (seen d2) = pNext d1) /\
  (forall pre d, sent = pre ++ [d] -> pNext d <> None ->
                 m_pCurr s' = pNext d).
Proof.
  intros Hcs H.
  destruct (run_delivers_in_sequence cs s hrs sent s' Hcs H) as (Ha & Hb & _ & Hd).
  auto.
Qed.

End SessionProperties.


(** ** Witnesses of the further properties *)

(** Witness of X1: resolving 1 s on the 5 s segment. *)
Lemma Seek_agrees_with_GetSeekBase_witness :
  let trk := Toy.track (5 * Toy.sec) 3 in
  let s := Toy.fields false None (Some 3%nat) None in
  GetSeekBase false trk Toy.sec true = Ok (Some 0%nat)
  /\ exists s', Seek false trk Toy.sec true s = Ok (Some 0%nat, s') /\
                m_pBase s' = Some 0%nat.
Proof.
  intros trk s. split; [reflexivity|].
  apply (proj2 (Seek_agrees_with_GetSeekBase false trk Toy.sec true s
                  (fun _ => ltac:(discriminate))) (Some 0%nat)).
  reflexivity.
Defined.

(** Witness of X2: the same seek from two cursors with the same [stop]. *)
Lemma Seek_forgets_cursor_witness :
  let trk := Toy.track (5 * Toy.sec) 3 in
  let s1 := Toy.fields false None (Some 3%nat) None in
  let s2 := Toy.fields true (Some 2%nat) (Some 3%nat) (Some 1%nat) in
  let s' := Toy.fields true (Some 1%nat) (Some 3%nat) (Some 0%nat) in
  Seek false trk Toy.sec false s2 = Ok (Some 0%nat, s')
  /\ Seek false trk Toy.sec false s' = Ok (Some 0%nat, s').
Proof.
  intros trk s1 s2 s'.
  assert (H : Seek false trk Toy.sec false s1 = Ok (Some 0%nat, s'))
    by reflexivity.
  exact (Seek_forgets_cursor false trk Toy.sec false s1 s2 _ _ H eq_refl).
Defined.

(** Witness of X3: an Absolute stop at 3,000,000,000 (taken as ns), from two
    different previous stops, and repeated. *)
Lemma SetStopPosition_forgets_stop_witness :
  let trk := Toy.track (5 * Toy.sec) 3 in
  let s := Toy.fields false (Some 1%nat) (Some 3%nat) (Some 0%nat) in
  let s' := Toy.fields false (Some 1%nat) (Some 2%nat) (Some 0%nat) in
  SetStopPosition false trk 3000000000 AM_SEEKING_AbsolutePositioning
    (set_m_pStop (Some 1%nat) s) = Ok s'
  /\ SetStopPosition false trk 3000000000 AM_SEEKING_AbsolutePositioning s'
     = Ok s'.
Proof.
  intros trk s s'.
  assert (H : SetStopPosition false trk 3000000000
                AM_SEEKING_AbsolutePositioning s = Ok s') by reflexivity.
  exact (SetStopPosition_forgets_stop false trk 3000000000
           AM_SEEKING_AbsolutePositioning s (Some 1%nat) s'
           (or_introl eq_refl) H).
Defined.

(** Witness of X4: the cursor on the end-of-stream entry, a Relative stop. *)
Lemma SetStopPosition_writes_stop_only_witness :
  let trk := Toy.track (5 * Toy.sec) 3 in
  let s := Toy.fields false (Some 3%nat) (Some 1%nat) (Some 2%nat) in
  SetStopPosition false trk (-10000000) AM_SEEKING_RelativePositioning s
  = Ok (Toy.fields false (Some 3%nat) (Some 3%nat) (Some 2%nat)).
Proof.
  intros trk s.
  apply (proj2 (SetStopPosition_writes_stop_only false trk (-10000000)
                  AM_SEEKING_RelativePositioning s)).
  - right. reflexivity.
  - intros _. vm_compute. discriminate.
Defined.

(** Witness of X5: the first pull on a fresh stream. *)
Lemma PopulateSample_frame_witness :
  let trk := Toy.track (5 * Toy.sec) 3 in
  let s := Toy.fields false (Some 0%nat) (Some 3%nat) (Some 0%nat) in
  let s' := Toy.fields false (Some 1%nat) (Some 3%nat) (Some 0%nat) in
  m_pStop s' = m_pStop s /\
  (m_pCurr s <> None -> m_pBase s' = m_pBase s) /\
  (m_bDiscontinuity s = false -> m_bDiscontinuity s' = false) /\
  ([ {| seen := s; pNext := Some 1%nat; answer := S_OK |} ] = [] ->
   m_pCurr s <> None -> s' = s).
Proof.
  intros trk s s'.
  assert (H : PopulateSample false trk (Toy.hooks S_OK) (Some 7%nat) s
              = Ok (S_OK, [ {| seen := s; pNext := Some 1%nat; answer := S_OK |} ], s'))
    by reflexivity.
  exact (PopulateSample_frame false trk (Toy.hooks S_OK) _ _ _ _ _ H).
Defined.

(** Witness of X6: a null sample pointer. *)
Lemma PopulateSample_statuses_witness :
  let trk := Toy.track (5 * Toy.sec) 3 in
  let s := Toy.fields false (Some 0%nat) (Some 3%nat) (Some 0%nat) in
  E_INVALIDARG = E_INVALIDARG <-> @None nat = None.
Proof.
  intros trk s.
  assert (H : PopulateSample false trk (Toy.hooks S_OK) None s
              = Ok (E_INVALIDARG, [], s)) by reflexivity.
  exact (proj1 (proj2 (PopulateSample_statuses false trk (Toy.hooks S_OK)
                         _ _ _ _ _ H))).
Defined.

(** Witness of X7: a null [stop], the cursor on the end-of-stream entry. *)
Lemma PopulateSample_end_of_stream_witness :
  let trk := Toy.track (5 * Toy.sec) 3 in
  let s := Toy.fields false (Some 3%nat) None (Some 2%nat) in
  PopulateSample false trk (Toy.hooks S_OK) (Some 7%nat) s = Ok (S_FALSE, [], s).
Proof.
  intros trk s.
  apply (proj1 (PopulateSample_end_of_stream false trk (Toy.hooks S_OK)
                  7%nat s 3%nat eq_refl eq_refl)).
  reflexivity.
Defined.

(** Witness of X8: the 5 s segment reads 50,000,000 ticks. *)
Lemma play_to_end_reads_duration_witness :
  let trk := Toy.track (5 * Toy.sec) 3 in
  let s := Toy.fields false (Some 1%nat) (Some 2%nat) (Some 0%nat) in
  GetCurrTime false trk (Init trk s) = Ok 0 /\
  GetStopTime false trk (Init trk s) = Ok 50000000.
Proof.
  intros trk s.
  destruct (play_to_end_reads_duration false trk 0
              AM_SEEKING_AbsolutePositioning s eq_refl) as (H1 & H2 & _).
  split; [exact H1|]. rewrite H2. reflexivity.
Defined.

(** Witness of X9: Incremental 0 with the cursor at 1 s. *)
Lemma SetStopPosition_incremental_window_witness :
  let trk := Toy.track (5 * Toy.sec) 3 in
  let s := Toy.fields false (Some 1%nat) (Some 3%nat) (Some 0%nat) in
  let s' := Toy.fields false (Some 1%nat) (Some 1%nat) (Some 0%nat) in
  GetStopTime false trk s' = GetCurrTime false trk s'.
Proof.
  intros trk s s'.
  assert (H : SetStopPosition false trk 0 AM_SEEKING_IncrementalPositioning s
              = Ok s') by reflexivity.
  apply (proj1 (SetStopPosition_incremental_window false trk 0
                  AM_SEEKING_IncrementalPositioning s s'
                  ltac:(discriminate) eq_refl eq_refl ltac:(reflexivity) H)).
  discriminate.
Defined.

(** Witness of X10: the block of entry 1 at 1,000,000,057 ns reads as
    10,000,000 ticks and seeks back to 1,000,000,000 ns. *)
Lemma GetCurrTime_GetSeekTime_round_trip_witness :
  let trk := Toy2.retime (Toy.track (5 * Toy.sec) 3) 1000000057 in
  let s := Toy.fields false (Some 1%nat) (Some 3%nat) (Some 0%nat) in
  exists r t',
    GetCurrTime false trk s = Ok r /\
    GetSeekTime false trk r AM_SEEKING_AbsolutePositioning s = Ok t' /\
    Z.abs (1000000057 - t') < 100 /\
    (0 <= 1000000057 -> t' <= 1000000057).
Proof.
  intros trk s.
  apply (GetCurrTime_GetSeekTime_round_trip false trk
           AM_SEEKING_AbsolutePositioning s s 1%nat 1%nat).
  - reflexivity.
  - reflexivity.
  - reflexivity.
  - split; [discriminate | reflexivity].
  - reflexivity.
  - intros _. discriminate.
Defined.

(** Witness of X11: from the entry at 1 s. *)
Lemma GetCurrTime_is_relative_zero_witness :
  let trk := Toy.track (5 * Toy.sec) 3 in
  let s := Toy.fields false (Some 1%nat) (Some 3%nat) (Some 0%nat) in
  GetCurrTime false trk s = Ok (Z.quot Toy.sec 100).
Proof.
  intros trk s.
  apply (GetCurrTime_is_relative_zero false trk
           AM_SEEKING_RelativePositioning s Toy.sec).
  - reflexivity.
  - split; [discriminate | reflexivity].
  - intros [|[|b]] c; split; (discriminate || reflexivity).
  - reflexivity.
Defined.

(** Witness of X12: all of the 5 s segment parsed. *)
Lemma GetAvailable_bounds_witness :
  let trk := Toy.track (5 * Toy.sec) 3 in
  GetAvailable false trk (Some 1%nat) None = Ok (E_POINTER, None) /\
  exists pos,
    GetAvailable false trk (Some 1%nat) (Some 77) = Ok (S_OK, Some pos) /\
    0 <= pos <= Z.quot (5 * Toy.sec) 100 /\
    (Segment_Unparsed trk <= 0 -> pos = Z.quot (5 * Toy.sec) 100).
Proof.
  intros trk.
  apply (GetAvailable_bounds false trk (Some 1%nat) 77).
  - discriminate.
  - intros c [= <-] _. split; discriminate.
Defined.

(** Witness of X13: a seek to 0. *)
Lemma Seek_against_SetCurrPosition_witness :
  let trk := Toy.track (5 * Toy.sec) 3 in
  let s := Toy.fields false (Some 1%nat) (Some 2%nat) (Some 0%nat) in
  Toy.fields true None (Some 2%nat) None = SetCurrPosition trk None s.
Proof.
  intros trk s.
  assert (H : Seek false trk 0 true s
              = Ok (None, Toy.fields true None (Some 2%nat) None))
    by reflexivity.
  apply (proj2 (proj2 (proj2
           (Seek_against_SetCurrPosition false trk 0 true s _ _ H)))).
  - right; left. reflexivity.
  - reflexivity.
Defined.

(** Witness of X14: an underflowing pull, a seek to 1 s and a pull, with
    [stop] on entry 2. *)
Lemma run_without_stop_calls_keeps_stop_witness :
  let trk := Toy.track (5 * Toy.sec) 3 in
  let s := Toy.fields true None (Some 2%nat) None in
  let d := {| seen := Toy.fields true (Some 1%nat) (Some 2%nat) (Some 0%nat);
              pNext := Some 2%nat; answer := S_OK |} in
  let s' := Toy.fields false (Some 2%nat) (Some 2%nat) (Some 0%nat) in
  m_pStop s' = m_pStop s /\
  Forall (fun d => m_pStop (seen d) = m_pStop s) [d].
Proof.
  intros trk s d s'.
  assert (H : run false (Toy.hooks S_OK)
                [ (Toy.track (5 * Toy.sec) 1, call_PopulateSample (Some 7%nat));
                  (trk, call_Seek Toy.sec false);
                  (trk, call_PopulateSample (Some 8%nat)) ] s
              = Ok ([VFW_E_BUFFER_UNDERFLOW; S_OK], [d], s')) by reflexivity.
  apply (run_without_stop_calls_keeps_stop false (Toy.hooks S_OK) _ _ _ _ _)
    in H; [exact H|].
  repeat constructor.
Defined.

(** Witness of X15: two pulls, an underflow in between, then a third pull
    after the stop position is set again. *)
Lemma pulls_deliver_in_sequence_witness :
  let trk := Toy.track (5 * Toy.sec) 3 in
  let d1 := {| seen := Toy.fields true (Some 0%nat) (Some 3%nat) (Some 0%nat);
               pNext := Some 1%nat; answer := S_OK |} in
  let d2 := {| seen := Toy.fields false (Some 1%nat) (Some 3%nat) (Some 0%nat);
               pNext := Some 2%nat; answer := S_OK |} in
  m_pCurr (seen d2) = pNext d1.
Proof.
  intros trk d1 d2.
  assert (H : run false (Toy.hooks S_OK)
                [ (Toy.track (5 * Toy.sec) 2, call_PopulateSample (Some 7%nat));
                  (Toy.track (5 * Toy.sec) 2, call_PopulateSample (Some 8%nat));
                  (trk, call_SetStopPositionEOS);
                  (trk, call_PopulateSample (Some 8%nat)) ]
                (Stream_ctor trk)
              = Ok ([S_OK; VFW_E_BUFFER_UNDERFLOW; S_OK], [d1; d2],
                    Toy.fields false (Some 2%nat) (Some 3%nat) (Some 0%nat)))
    by reflexivity.
  apply (pulls_deliver_in_sequence false (Toy.hooks S_OK) _ _ _ _ _) in H;
    [|repeat constructor].
  destruct H as (_ & Hchain & _).
  apply (Hchain [] d1 d2 []); [reflexivity | discriminate].
Defined.
